(** * MVR document query client: result parser, CAPTCHA extraction and retry loop

    A shallow embedding of [mvr_client.py] (class [MVRClient]) and the
    properties of its result parser ([_do_query]), its CAPTCHA extractor
    ([extract_captcha_image]), its solver selection ([__init__],
    [solve_captcha_ocr]) and its retry orchestrator ([query_documents]).

    Python [str] values are lists of Unicode code points; [bytes] values are
    lists of numbers below 256.  The libraries the client calls (requests,
    BeautifulSoup, PIL, the OCR engines, the operator at the terminal) are
    taken as parameters; the Unicode tables Python consults ([str.lower],
    [str.isspace], the classes [\s] and [\d], case-insensitive matching) are
    the fields of a class, so every theorem holds for whatever those tables
    contain.  The file also covers [download_captcha_image], [main] and the
    two handlers of [interceptor.py]. *)

From Stdlib Require Import Strings.String Strings.Ascii.
From Stdlib Require Import List NArith ZArith Bool Lia.
Import ListNotations.

#[local] Set Warnings "-register-all".
Local Open Scope N_scope.

(* ================================================================== *)
(** ** Python strings *)

Definition char := N.
Definition str := list char.
Definition bytes := list N.

(** Source literals are written as UTF-8 text and decoded to code points. *)
Fixpoint string_bytes (s : string) : list N :=
  match s with
  | EmptyString => []
  | String a s' => N_of_ascii a :: string_bytes s'
  end.

Fixpoint utf8_decode (bs : list N) : str :=
  match bs with
  | [] => []
  | b0 :: r0 =>
      if b0 <? 128 then b0 :: utf8_decode r0
      else match r0 with
           | [] => []
           | b1 :: r1 =>
               if b0 <? 224 then ((b0 - 192) * 64 + (b1 - 128)) :: utf8_decode r1
               else match r1 with
                    | [] => []
                    | b2 :: r2 =>
                        if b0 <? 240
                        then ((b0 - 224) * 4096 + (b1 - 128) * 64 + (b2 - 128))
                               :: utf8_decode r2
                        else match r2 with
                             | [] => []
                             | b3 :: r3 =>
                                 ((b0 - 240) * 262144 + (b1 - 128) * 4096
                                  + (b2 - 128) * 64 + (b3 - 128)) :: utf8_decode r3
                             end
                    end
           end
  end.

Definition u (s : string) : str := utf8_decode (string_bytes s).

Definition nonempty {A} (l : list A) : bool :=
  match l with [] => false | _ :: _ => true end.

Fixpoint str_eqb (a b : str) : bool :=
  match a, b with
  | [], [] => true
  | x :: a', y :: b' => (x =? y) && str_eqb a' b'
  | _, _ => false
  end.

(** [s.startswith(p)] *)
Fixpoint startswith (p s : str) : bool :=
  match p, s with
  | [], _ => true
  | x :: p', y :: s' => (x =? y) && startswith p' s'
  | _ :: _, [] => false
  end.

(** [needle in hay] *)
Fixpoint contains (needle hay : str) : bool :=
  startswith needle hay
  || match hay with [] => false | _ :: t => contains needle t end.

(** [sep.join(l)] *)
Fixpoint join (sep : str) (l : list str) : str :=
  match l with
  | [] => []
  | x :: t => match t with [] => x | _ :: _ => x ++ sep ++ join sep t end
  end.

(** [s.split(sep, 1)] for a one-character separator. *)
Fixpoint partition_at (sep : char) (s : str) : option (str * str) :=
  match s with
  | [] => None
  | x :: t =>
      if x =? sep then Some ([], t)
      else match partition_at sep t with
           | Some (a, b) => Some (x :: a, b)
           | None => None
           end
  end.

Definition split_1 (sep : char) (s : str) : list str :=
  match partition_at sep s with
  | Some (a, b) => [a; b]
  | None => [s]
  end.

(** [re.sub(r'[^A-Za-z0-9]', '', s)] *)
Definition ascii_alnum (c : char) : bool :=
  ((65 <=? c) && (c <=? 90)) || ((97 <=? c) && (c <=? 122))
  || ((48 <=? c) && (c <=? 57)).

Definition strip_non_alnum (s : str) : str := filter ascii_alnum s.

(** The Unicode tables of the interpreter. *)
Class Unicode := {
  isspace : char -> bool;          (* str.isspace on one character; \s *)
  isdecimal : char -> bool;        (* \d in a str pattern *)
  lower : str -> str;              (* str.lower *)
  re_ieq : char -> char -> bool    (* literal against text under re.I *)
}.

Section Strings.
Context {U : Unicode}.

Fixpoint lstrip (s : str) : str :=
  match s with
  | [] => []
  | c :: t => if isspace c then lstrip t else s
  end.

Definition rstrip (s : str) : str := rev (lstrip (rev s)).

(** [s.strip()] *)
Definition strip (s : str) : str := rstrip (lstrip s).
End Strings.

(* ================================================================== *)
(** ** The regular expressions of the client

    The patterns of the source use literals, [.], [\s], [\d], concatenation,
    alternation, one greedy [+] and the lazy [.*?].  The matcher is the
    backtracking one of [re]: alternatives left to right, a greedy repeat
    longest first, a lazy repeat shortest first; the continuation [k] is the
    rest of the pattern. *)

Record flags := { IGNORECASE : bool; DOTALL : bool }.

Inductive atom := Lit (c : char) | Dot | Space | Digit.

Inductive regex :=
| Empty
| One (a : atom)
| Cat (r1 r2 : regex)
| Alt (r1 r2 : regex)
| Plus (a : atom)        (* a+  *)
| StarLazy (a : atom).   (* a*? *)

Fixpoint lit (s : str) : regex :=
  match s with
  | [] => Empty
  | c :: t => Cat (One (Lit c)) (lit t)
  end.

Fixpoint cats (l : list regex) : regex :=
  match l with
  | [] => Empty
  | r :: t => Cat r (cats t)
  end.

Section Regex.
Context {U : Unicode}.

Definition atom_match (fl : flags) (a : atom) (x : char) : bool :=
  match a with
  | Lit c => if IGNORECASE fl then re_ieq c x else c =? x
  | Dot => DOTALL fl || negb (x =? 10)
  | Space => isspace x
  | Digit => isdecimal x
  end.

Fixpoint star_greedy (p : char -> bool) (k : str -> option str) (s : str)
  : option str :=
  match s with
  | x :: s' =>
      if p x
      then match star_greedy p k s' with
           | Some t => Some t
           | None => k s
           end
      else k s
  | [] => k s
  end.

Fixpoint star_lazy (p : char -> bool) (k : str -> option str) (s : str)
  : option str :=
  match k s with
  | Some t => Some t
  | None =>
      match s with
      | x :: s' => if p x then star_lazy p k s' else None
      | [] => None
      end
  end.

(** [rmatch fl r k s]: match [r] at the head of [s], then [k] on what is
    left; the result is the text left after the whole match. *)
Fixpoint rmatch (fl : flags) (r : regex) (k : str -> option str) (s : str)
  : option str :=
  match r with
  | Empty => k s
  | One a =>
      match s with
      | x :: s' => if atom_match fl a x then k s' else None
      | [] => None
      end
  | Cat r1 r2 => rmatch fl r1 (rmatch fl r2 k) s
  | Alt r1 r2 =>
      match rmatch fl r1 k s with
      | Some t => Some t
      | None => rmatch fl r2 k s
      end
  | Plus a =>
      match s with
      | x :: s' =>
          if atom_match fl a x then star_greedy (atom_match fl a) k s' else None
      | [] => None
      end
  | StarLazy a => star_lazy (atom_match fl a) k s
  end.

(** The text matched at the head of [s], if any. *)
Definition match_here (fl : flags) (r : regex) (s : str) : option str :=
  match rmatch fl r Some s with
  | Some rest => Some (firstn (List.length s - List.length rest) s)
  | None => None
  end.

(** [re.search(r, s, fl)]: the leftmost match; the value is the matched
    text (group 1 of the client's patterns is the whole match). *)
Fixpoint re_search (fl : flags) (r : regex) (s : str) : option str :=
  match match_here fl r s with
  | Some m => Some m
  | None =>
      match s with
      | [] => None
      | _ :: t => re_search fl r t
      end
  end.
End Regex.

(** What a pattern describes, without the search order. *)
Inductive Matches {U : Unicode} (fl : flags) : regex -> str -> Prop :=
| M_Empty : Matches fl Empty []
| M_One a x : atom_match fl a x = true -> Matches fl (One a) [x]
| M_Cat r1 r2 s1 s2 :
    Matches fl r1 s1 -> Matches fl r2 s2 -> Matches fl (Cat r1 r2) (s1 ++ s2)
| M_AltL r1 r2 s : Matches fl r1 s -> Matches fl (Alt r1 r2) s
| M_AltR r1 r2 s : Matches fl r2 s -> Matches fl (Alt r1 r2) s
| M_Plus a x s :
    atom_match fl a x = true ->
    forallb (atom_match fl a) s = true -> Matches fl (Plus a) (x :: s)
| M_StarLazy a s :
    forallb (atom_match fl a) s = true -> Matches fl (StarLazy a) s.

(** [text] has an occurrence of the pattern. *)
Definition occurs {U : Unicode} (fl : flags) (r : regex) (text : str) : Prop :=
  exists pre m post, text = pre ++ m ++ post /\ Matches fl r m.

(* ================================================================== *)
(** ** Exceptions *)

Inductive exn :=
| IndexError                      (* list index out of range *)
| ValueError                      (* b64decode: non-ASCII characters in a str *)
| BinasciiError                   (* a2b_base64: incorrect padding *)
| HTTPError (status : Z)          (* raise_for_status *)
| RequestException                (* a transport failure inside session.get *)
| UnidentifiedImageError          (* Image.open *)
| RuntimeError (msg : str)
| UnboundLocalError (name : str).

Inductive outcome (A : Type) :=
| Ret (a : A)
| Raise (e : exn).
Arguments Ret {A} a.
Arguments Raise {A} e.

(* ================================================================== *)
(** ** Base64

    [b64encode] is the encoding of RFC 4648 (what a data URI carries);
    [a2b_base64] is the decoding loop that [base64.b64decode] runs when
    validation is off: characters outside the alphabet are skipped, a
    complete run of padding ends the input, an unfinished quad is an error. *)

Definition b64_alphabet : str :=
  Eval vm_compute in
    u "ABCDEFGHIJKLMNOPQRSTUVWXYZabcdefghijklmnopqrstuvwxyz0123456789+/".

Definition BASE64_PAD : char := 61.

Definition b64_char (v : N) : char := nth (N.to_nat v) b64_alphabet BASE64_PAD.

Fixpoint b64encode (bs : bytes) : str :=
  match bs with
  | [] => []
  | a :: r1 =>
      match r1 with
      | [] =>
          [b64_char (N.shiftr a 2); b64_char (N.shiftl (N.land a 3) 4);
           BASE64_PAD; BASE64_PAD]
      | b :: r2 =>
          match r2 with
          | [] =>
              [b64_char (N.shiftr a 2);
               b64_char (N.lor (N.shiftl (N.land a 3) 4) (N.shiftr b 4));
               b64_char (N.shiftl (N.land b 15) 2); BASE64_PAD]
          | c :: rest =>
              b64_char (N.shiftr a 2)
              :: b64_char (N.lor (N.shiftl (N.land a 3) 4) (N.shiftr b 4))
              :: b64_char (N.lor (N.shiftl (N.land b 15) 2) (N.shiftr c 6))
              :: b64_char (N.land c 63)
              :: b64encode rest
          end
      end
  end.

Definition table_a2b_base64 (c : char) : option N :=
  if (65 <=? c) && (c <=? 90) then Some (c - 65)
  else if (97 <=? c) && (c <=? 122) then Some (c - 97 + 26)
  else if (48 <=? c) && (c <=? 57) then Some (c - 48 + 52)
  else if c =? 43 then Some 62
  else if c =? 47 then Some 63
  else None.

Fixpoint a2b_base64_loop (ascii_data : list N) (quad_pos : nat) (leftchar : N)
    (pads : nat) (bin_data : bytes) : outcome bytes :=
  match ascii_data with
  | [] =>
      if Nat.eqb quad_pos 0 then Ret bin_data else Raise BinasciiError
  | this_ch :: rest =>
      if this_ch =? BASE64_PAD then
        if Nat.leb 2 quad_pos then
          if Nat.leb 4 (quad_pos + S pads) then Ret bin_data
          else a2b_base64_loop rest quad_pos leftchar (S pads) bin_data
        else a2b_base64_loop rest quad_pos leftchar pads bin_data
      else
        match table_a2b_base64 this_ch with
        | None => a2b_base64_loop rest quad_pos leftchar pads bin_data
        | Some v =>
            match quad_pos with
            | O => a2b_base64_loop rest 1 v 0 bin_data
            | 1%nat =>
                a2b_base64_loop rest 2 (N.land v 15) 0
                  (bin_data
                   ++ [N.land (N.lor (N.shiftl leftchar 2) (N.shiftr v 4)) 255])
            | 2%nat =>
                a2b_base64_loop rest 3 (N.land v 3) 0
                  (bin_data
                   ++ [N.land (N.lor (N.shiftl leftchar 4) (N.shiftr v 2)) 255])
            | _ =>
                a2b_base64_loop rest 0 0 0
                  (bin_data ++ [N.land (N.lor (N.shiftl leftchar 6) v) 255])
            end
        end
  end.

Definition a2b_base64 (data : list N) : outcome bytes :=
  a2b_base64_loop data 0 0 0 [].

(** [base64.b64decode(s)] on a [str]: the text is first encoded as ASCII. *)
Definition b64decode (s : str) : outcome bytes :=
  if forallb (fun c => c <? 128) s then a2b_base64 s else Raise ValueError.

(* ================================================================== *)
(** ** The parsed document (BeautifulSoup) *)

Inductive attr_value :=
| Single (s : str)
| Multi (l : list str).          (* class and the other multi-valued ones *)

Inductive node :=
| NavigableString (s : str)
| Comment (s : str)
| Tag (name : str) (attrs : list (str * attr_value)) (contents : list node).

(** [tag.descendants]: document order, the tag itself excluded. *)
Fixpoint descendants (n : node) : list node :=
  match n with
  | Tag _ _ cs =>
      (fix walk (l : list node) : list node :=
         match l with
         | [] => []
         | c :: l' => c :: descendants c ++ walk l'
         end) cs
  | _ => []
  end.

(** [attrs.get(k)] *)
Fixpoint attrs_get (k : str) (attrs : list (str * attr_value))
  : option attr_value :=
  match attrs with
  | [] => None
  | (k', v) :: t => if str_eqb k k' then Some v else attrs_get k t
  end.

Definition tag_get (n : node) (k : str) : option attr_value :=
  match n with
  | Tag _ attrs _ => attrs_get k attrs
  | _ => None
  end.

(** How a search criterion (a function or a compiled pattern) is tried on
    an attribute value: a missing attribute is tried as [None], a
    multi-valued one token by token and then as the joined text. *)
Definition value_matches (p : option str -> bool) (v : option attr_value) : bool :=
  match v with
  | None => p None
  | Some (Single s) => p (Some s)
  | Some (Multi l) =>
      existsb (fun s => p (Some s)) l || p (Some (join (u " ") l))
  end.

Definition search_tag (name : option str) (attr : str) (p : option str -> bool)
    (n : node) : bool :=
  match n with
  | Tag nm attrs _ =>
      match name with
      | None => true
      | Some want => str_eqb nm want
      end
      && value_matches p (attrs_get attr attrs)
  | _ => false
  end.

(** [soup.find(name, {attr: p})] *)
Definition find (name : option str) (attr : str) (p : option str -> bool)
    (soup : node) : option node :=
  List.find (search_tag name attr p) (descendants soup).

Section Document.
Context {U : Unicode}.

Definition _all_strings (strip_ : bool) (n : node) : list str :=
  flat_map
    (fun d =>
       match d with
       | NavigableString s =>
           if strip_
           then let s' := strip s in if nonempty s' then [s'] else []
           else [s]
       | _ => []
       end)
    (descendants n).

(** [tag.get_text(separator, strip)] *)
Definition get_text (separator : str) (strip_ : bool) (n : node) : str :=
  join separator (_all_strings strip_ n).

(** A compiled pattern used as a search criterion. *)
Definition re_criterion (fl : flags) (r : regex) (x : option str) : bool :=
  match x with
  | Some s => match re_search fl r s with Some _ => true | None => false end
  | None => false
  end.
End Document.

(* ================================================================== *)
(** ** The result parser of [_do_query] *)

Record QueryResult := {
  success : bool;
  is_captcha_error : bool;
  egn : str;
  last_name : str;
  result : str;
  raw_html : str
}.

Definition tok_Greshka : str := Eval vm_compute in u "Грешка".
Definition tok_Nevalidna : str := Eval vm_compute in u "Невалидна".
Definition tok_kapcha : str := Eval vm_compute in u "капча".
Definition could_not_parse : str := Eval vm_compute in u "Could not parse result".

Definition re_I : flags := {| IGNORECASE := true; DOTALL := false |}.
Definition re_DOTALL : flags := {| IGNORECASE := false; DOTALL := true |}.
Definition re_DOTALL_I : flags := {| IGNORECASE := true; DOTALL := true |}.

(** [След\s+\d{2}\.\d{2}\.\d{4}.*?получен\.] *)
Definition success_pattern : regex :=
  cats [lit (u "След"); Plus Space;
        One Digit; One Digit; One (Lit 46);
        One Digit; One Digit; One (Lit 46);
        One Digit; One Digit; One Digit; One Digit;
        StarLazy Dot; lit (u "получен.")].

(** [Грешка.*?капча|Невалидна.*?капча] *)
Definition error_pattern : regex :=
  Alt (cats [lit tok_Greshka; StarLazy Dot; lit tok_kapcha])
      (cats [lit tok_Nevalidna; StarLazy Dot; lit tok_kapcha]).

Section Parser.
Context {U : Unicode}.

(** [lambda x: x and tok in str(x).lower() if x else False] *)
Definition class_has (tok : str) (x : option str) : bool :=
  match x with
  | Some s => if nonempty s then nonempty s && contains tok (lower s) else false
  | None => false
  end.

Definition selectors (soup : node) : list (unit -> option node) :=
  [ fun _ => find None (u "class") (class_has (u "alert")) soup;
    fun _ => find (Some (u "div")) (u "class")
               (re_criterion re_I (lit (u "info-bubble"))) soup;
    fun _ => find None (u "class") (class_has (u "result")) soup ].

(** The selector loop: stop at the first selector that finds a tag. *)
Fixpoint first_found (sels : list (unit -> option node))
    (result_div : option node) : option node :=
  match sels with
  | [] => result_div
  | selector :: rest =>
      match selector tt with
      | Some d => Some d
      | None => first_found rest None
      end
  end.

Definition find_result_div (soup : node) : option node :=
  first_found (selectors soup) None.

(** Lines 245-287 of the source: from the parsed response to the result. *)
Definition parse_response (egn last_name response_text : str) (soup : node)
  : QueryResult :=
  let '(is_error, is_captcha_error, result_text) :=
    match find_result_div soup with
    | Some result_div =>
        let result_text := get_text (u " ") true result_div in
        if contains tok_Greshka result_text || contains tok_Nevalidna result_text
        then (true, contains tok_kapcha (lower result_text), result_text)
        else (false, false, result_text)
    | None =>
        let text := get_text [] false soup in
        match re_search re_DOTALL success_pattern text with
        | Some success_match => (false, false, success_match)
        | None =>
            match re_search re_DOTALL_I error_pattern text with
            | Some error_match => (true, true, error_match)
            | None => (false, false, could_not_parse)
            end
        end
    end in
  {| success := negb is_error;
     is_captcha_error := is_captcha_error;
     egn := egn;
     last_name := last_name;
     result := result_text;
     raw_html := response_text |}.
End Parser.

(** The test of line 262 on a result text. *)
Definition has_error_token (t : str) : bool :=
  contains tok_Greshka t || contains tok_Nevalidna t.

(** A relation between two of the interpreter's tables that some statements
    assume: text that matches the token for "captcha" letter by letter under
    [re.I] still shows that token once the text around it is lower-cased. *)
Definition lower_keeps_captcha_token (U : Unicode) : Prop :=
  forall pre w post,
    Forall2 (fun c x => re_ieq c x = true) tok_kapcha w ->
    contains tok_kapcha (lower (pre ++ w ++ post)) = true.

(* ================================================================== *)
(** ** The world outside the client *)

Record Response := {
  status_code : Z;
  text : str;          (* response.text *)
  content : bytes      (* response.content *)
}.

(** What the client calls and does not define.  [World] is everything that
    changes between calls: the remote site, the cookie jar of the session,
    the operator at the terminal. *)
Class Platform := {
  World : Type;
  Image : Type;                                          (* PIL.Image *)
  session_get : str -> World -> outcome Response * World; (* session.get(url, timeout=30) *)
  cookies_clear : World -> World;                        (* session.cookies.clear() *)
  BeautifulSoup : str -> node;                           (* BeautifulSoup(text, 'lxml') *)
  urlencode : list (str * str) -> str;                   (* urlencode(params, quote_via=quote) *)
  Image_open : bytes -> outcome Image;                   (* Image.open(BytesIO(data)) *)
  save_png : Image -> bytes;                             (* image.save(buffer, format='PNG') *)
  binarize : Image -> Image;                             (* the cv2 grey-scale and threshold steps;
                                                            the identity where cv2 is missing *)
  DDDDOCR_AVAILABLE : bool;
  EASYOCR_AVAILABLE : bool;
  classification : bytes -> str;                         (* ddddocr.DdddOcr.classification *)
  readtext : Image -> list str;                          (* easyocr.Reader.readtext(array, detail=0) *)
  operator : Image -> World -> str * World               (* the image shown, then input() *)
}.

(** What the trace of a run records: every request with the method that
    issued it, every cookie reset, every prompt, and every result the parser
    hands back. *)
Inductive request_kind := FormPage | CaptchaImage | Query.

Inductive event :=
| CookiesCleared
| HttpGet (kind : request_kind) (url : str)
| OperatorPrompt
| Parsed (r : QueryResult).

Definition BASE_URL : str := Eval vm_compute in u "https://www.mvr.bg".
Definition SERVICE_PATH : str :=
  Eval vm_compute in
    u "/електронизирани-услуги/справка-за-издадени-и-неполучени-български-лични-документи".

Definition no_ocr_message : str :=
  Eval vm_compute in u "No OCR library available. Install ddddocr or easyocr.".

(** [range(a, b)] *)
Definition range (a b : Z) : list Z :=
  map (fun i => (a + Z.of_nat i)%Z) (seq 0 (Z.to_nat (b - a))).

(** Lines 110-111 of [extract_captcha_image]: the bytes of an inline image. *)
Definition data_uri_payload (src : str) : outcome bytes :=
  match nth_error (split_1 44 src) 1 with
  | Some base64_data => b64decode base64_data
  | None => Raise IndexError
  end.

Section Client.
Context {U : Unicode} {P : Platform}.

Record state := { world : World; trace : list event }.

(** Computations of the client: a state, and a value or an exception.
    What the client prints is not part of the state. *)
Definition M (A : Type) : Type := state -> outcome A * state.

Definition ret {A} (a : A) : M A := fun st => (Ret a, st).
Definition raise {A} (e : exn) : M A := fun st => (Raise e, st).
Definition bind {A B} (m : M A) (k : A -> M B) : M B :=
  fun st =>
    match m st with
    | (Ret a, st') => k a st'
    | (Raise e, st') => (Raise e, st')
    end.
Definition lift {A} (o : outcome A) : M A := fun st => (o, st).
Definition emit (e : event) : M unit :=
  fun st => (Ret tt, {| world := world st; trace := trace st ++ [e] |}).

Local Notation "x <- m ;; k" := (bind m (fun x => k))
  (at level 61, m at next level, right associativity).
Local Notation "m ;;; k" := (bind m (fun _ => k))
  (at level 61, right associativity).

Definition http_get (kind : request_kind) (url : str) : M Response :=
  fun st =>
    let '(o, w) := session_get url (world st) in
    (o, {| world := w; trace := trace st ++ [HttpGet kind url] |}).

Definition clear_cookies : M unit :=
  fun st =>
    (Ret tt, {| world := cookies_clear (world st);
                trace := trace st ++ [CookiesCleared] |}).

(** [response.raise_for_status()] *)
Definition raise_for_status (response : Response) : M unit :=
  if ((400 <=? status_code response) && (status_code response <? 600))%Z
  then raise (HTTPError (status_code response))
  else ret tt.

Record MVRClient := {
  use_ocr : bool;
  max_retries : Z;
  ocr : option (bytes -> str);
  easyocr_reader : option (Image -> list str)
}.

Definition __init__ (use_ocr : bool) (max_retries : Z) : MVRClient :=
  if use_ocr then
    if DDDDOCR_AVAILABLE then
      {| use_ocr := true; max_retries := max_retries;
         ocr := Some classification; easyocr_reader := None |}
    else if EASYOCR_AVAILABLE then
      {| use_ocr := true; max_retries := max_retries;
         ocr := None; easyocr_reader := Some readtext |}
    else
      {| use_ocr := false; max_retries := max_retries;
         ocr := None; easyocr_reader := None |}
  else
    {| use_ocr := false; max_retries := max_retries;
       ocr := None; easyocr_reader := None |}.

Definition get_form_page : M node :=
  response <- http_get FormPage (BASE_URL ++ SERVICE_PATH) ;;
  raise_for_status response ;;;
  ret (BeautifulSoup (text response)).

Definition or_else (a : option node) (b : unit -> option node) : option node :=
  match a with
  | Some t => Some t
  | None => b tt
  end.

Definition find_captcha_img (soup : node) : option node :=
  let img := Some (u "img") in
  let captcha_img :=
    find img (u "class") (re_criterion re_I (lit (u "captcha"))) soup in
  let captcha_img :=
    or_else captcha_img (fun _ =>
      find img (u "alt")
        (re_criterion re_I (Alt (lit (u "captcha")) (lit (u "защитен код"))))
        soup) in
  or_else captcha_img (fun _ =>
    find img (u "id") (re_criterion re_I (lit (u "captcha"))) soup).

(** [captcha_img.get('src')] when it is a non-empty text ([src] is not one
    of the multi-valued attributes, so the parser never yields a list). *)
Definition truthy_src (captcha_img : node) : option str :=
  match tag_get captcha_img (u "src") with
  | Some (Single src) => if nonempty src then Some src else None
  | _ => None
  end.

Definition extract_captcha_image (soup : node) : M (option Image) :=
  match find_captcha_img soup with
  | None => ret None
  | Some captcha_img =>
      match truthy_src captcha_img with
      | None => ret None
      | Some src =>
          if startswith (u "data:image") src then
            image_data <- lift (data_uri_payload src) ;;
            image <- lift (Image_open image_data) ;;
            ret (Some image)
          else
            let url :=
              if startswith (u "/") src then BASE_URL ++ src
              else if startswith (u "http") src then src
              else BASE_URL ++ u "/" ++ src in
            response <- http_get CaptchaImage url ;;
            raise_for_status response ;;;
            image <- lift (Image_open (content response)) ;;
            ret (Some image)
      end
  end.

Definition _preprocess_captcha (image : Image) : Image := binarize image.

Definition solve_captcha_ocr (self : MVRClient) (image : Image) : outcome str :=
  match ocr self with
  | Some engine =>
      let processed := _preprocess_captcha image in
      Ret (strip_non_alnum (engine (save_png processed)))
  | None =>
      let no_engine := Raise (RuntimeError no_ocr_message) in
      match easyocr_reader self with
      | Some reader =>
          let results := reader image in
          if nonempty results
          then Ret (strip_non_alnum (strip (join [] results)))
          else no_engine
      | None => no_engine
      end
  end.

Definition solve_captcha_manual (image : Image) : M str :=
  fun st =>
    let '(line, w) := operator image (world st) in
    (Ret (strip line),
     {| world := w; trace := trace st ++ [OperatorPrompt] |}).

Definition _do_query (egn last_name captcha : str) : M QueryResult :=
  let params :=
    [(u "type", u "6729"); (u "egn", egn); (u "name", last_name);
     (u "captcha", captcha); (u "submitted", u "1")] in
  let query_url := BASE_URL ++ SERVICE_PATH ++ u "?" ++ urlencode params in
  response <- http_get Query query_url ;;
  raise_for_status response ;;;
  let soup := BeautifulSoup (text response) in
  let r := parse_response egn last_name (text response) soup in
  emit (Parsed r) ;;;
  ret r.

(** How one pass through the loop body ends: [continue] (with the local
    [result] bound) or [return]. *)
Inductive flow :=
| Continue (result : QueryResult)
| Return (r : QueryResult).

Definition submit_and_evaluate (egn last_name captcha : str) : M flow :=
  result <- _do_query egn last_name captcha ;;
  if success result then ret (Return result)
  else if is_captcha_error result then ret (Continue result)
  else ret (Return result).

Definition attempt_body (self : MVRClient) (egn last_name : str) (attempt : Z)
  : M flow :=
  clear_cookies ;;;
  soup <- get_form_page ;;
  captcha_image <- extract_captcha_image soup ;;
  match captcha_image with
  | None => submit_and_evaluate egn last_name []
  | Some image =>
      if use_ocr self then
        captcha <- lift (solve_captcha_ocr self image) ;;
        submit_and_evaluate egn last_name captcha
      else
        captcha <- solve_captcha_manual image ;;
        r <- _do_query egn last_name captcha ;;
        ret (Return r)
  end.

(** The [for] loop over the attempts; [result] is the local variable of
    the source, unbound until the first [continue]. *)
Fixpoint for_attempts (self : MVRClient) (egn last_name : str)
    (attempts : list Z) (result : option QueryResult) : M QueryResult :=
  match attempts with
  | [] =>
      match result with
      | Some r => ret r
      | None => raise (UnboundLocalError (u "result"))
      end
  | attempt :: rest =>
      f <- attempt_body self egn last_name attempt ;;
      match f with
      | Return r => ret r
      | Continue r => for_attempts self egn last_name rest (Some r)
      end
  end.

Definition query_documents (self : MVRClient) (egn last_name : str)
    (captcha : option str) : M QueryResult :=
  match captcha with
  | Some (c :: cs) => _do_query egn last_name (c :: cs)
  | _ => for_attempts self egn last_name (range 1 (max_retries self + 1)) None
  end.

(** Observations on a trace. *)
Definition is_form_fetch (e : event) : bool :=
  match e with HttpGet FormPage _ => true | _ => false end.
Definition is_submission (e : event) : bool :=
  match e with HttpGet Query _ => true | _ => false end.

Definition form_fetches (t : list event) : nat :=
  List.length (filter is_form_fetch t).
Definition submissions (t : list event) : nat :=
  List.length (filter is_submission t).

Fixpoint results_of (t : list event) : list QueryResult :=
  match t with
  | [] => []
  | Parsed r :: t' => r :: results_of t'
  | _ :: t' => results_of t'
  end.

Definition captcha_failure (r : QueryResult) : Prop :=
  success r = false /\ is_captcha_error r = true.
Definition permanent_failure (r : QueryResult) : Prop :=
  success r = false /\ is_captcha_error r = false.

(** Every result that another event follows was a CAPTCHA failure. *)
Fixpoint retried_only_on_captcha (t : list event) : Prop :=
  match t with
  | [] => True
  | Parsed r :: t' =>
      (t' <> [] -> captcha_failure r) /\ retried_only_on_captcha t'
  | _ :: t' => retried_only_on_captcha t'
  end.

(** The local [result] after the results [rs] were assigned to it in turn,
    and what [return result] then does. *)
Definition final_result (result : option QueryResult) (rs : list QueryResult)
  : option QueryResult :=
  fold_left (fun _ r => Some r) rs result.

Definition return_result (result : option QueryResult) : outcome QueryResult :=
  match result with
  | Some r => Ret r
  | None => Raise (UnboundLocalError (u "result"))
  end.

Definition start (w : World) : state := {| world := w; trace := [] |}.

(** A call of [query_documents] in the world [w]: what it returns or
    raises, and the trace it leaves. *)
Definition run_query (self : MVRClient) (egn last_name : str)
    (captcha : option str) (w : World) : outcome QueryResult * list event :=
  let '(o, st) := query_documents self egn last_name captcha (start w) in
  (o, trace st).
End Client.

(* ================================================================== *)
(** ** A scripted site, for running the client on concrete inputs *)

Module Scripted.

(** Tables that agree with the interpreter's on ASCII and on the basic
    Cyrillic block, which is all the examples use. *)
Definition lower_char (c : char) : char :=
  if (65 <=? c) && (c <=? 90) then c + 32
  else if (1040 <=? c) && (c <=? 1071) then c + 32
  else if (1024 <=? c) && (c <=? 1039) then c + 80
  else c.

Definition space_char (c : char) : bool :=
  ((9 <=? c) && (c <=? 13)) || ((28 <=? c) && (c <=? 32))
  || (c =? 133) || (c =? 160).

Definition unicode : Unicode :=
  {| isspace := space_char;
     isdecimal := fun c => (48 <=? c) && (c <=? 57);
     lower := map lower_char;
     re_ieq := fun c x => lower_char c =? lower_char x |}.

(** A response that is plain text parses to a document holding that text. *)
Definition page (body : list node) : node := Tag (u "[document]") [] body.
Definition plain (t : str) : node := page [NavigableString t].

Definition div_class (cls : string) (t : string) : node :=
  Tag (u "div") [(u "class", Multi [u cls])] [NavigableString (u t)].

Definition captcha_img (src : str) : node :=
  Tag (u "img") [(u "class", Multi [u "captcha"]); (u "src", Single src)] [].

(** The pages of the scripted site, by their text. *)
Definition form_text : str := Eval vm_compute in u "<form with captcha>".
Definition denied_text : str := Eval vm_compute in u "<alert: bad egn>".
Definition captcha_error_text : str :=
  Eval vm_compute in u "Грешка: невалидна капча".
Definition received_text : str :=
  Eval vm_compute in u "След 01.01.2024 документ е получен.".
Definition png : bytes := [137; 80; 78; 71].

Definition parse (t : str) : node :=
  if str_eqb t form_text
  then page [captcha_img (u "data:image/png;base64," ++ b64encode png)]
  else if str_eqb t denied_text
  then page [div_class "alert alert-danger" "Грешка: Невалидна стойност на ЕГН"]
  else plain t.

Definition ok (t : str) : Response :=
  {| status_code := 200%Z; text := t; content := [] |}.

(** The world is the list of responses the site will still give. *)
Definition platform (ddddocr easyocr : bool) : Platform :=
  {| World := list Response;
     Image := bytes;
     session_get := fun _ w =>
       match w with
       | [] => (Raise RequestException, [])
       | r :: w' => (Ret r, w')
       end;
     cookies_clear := fun w => w;
     BeautifulSoup := parse;
     urlencode := fun params =>
       join (u "&") (map (fun kv => fst kv ++ u "=" ++ snd kv) params);
     Image_open := fun data => Ret data;
     save_png := fun image => image;
     binarize := fun image => image;
     DDDDOCR_AVAILABLE := ddddocr;
     EASYOCR_AVAILABLE := easyocr;
     classification := fun _ => u "x7-K2";
     readtext := fun _ => [u "x7"; u "K2"];
     operator := fun _ w => (u " abc12 ", w) |}.

Definition egn0 : str := Eval vm_compute in u "8001010000".
Definition name0 : str := Eval vm_compute in u "Иванов".

(** A site that rejects every CAPTCHA (and would go on serving pages). *)
Definition captcha_always_wrong : list Response :=
  [ok form_text; ok captcha_error_text; ok form_text; ok captcha_error_text;
   ok form_text; ok captcha_error_text; ok form_text; ok received_text].

(** A site that rejects the id number on the first submission. *)
Definition id_number_denied : list Response :=
  [ok form_text; ok denied_text; ok form_text; ok received_text].

(** A site that answers the first submission with the success phrase. *)
Definition document_received : list Response :=
  [ok form_text; ok received_text].

End Scripted.

(* ================================================================== *)
(** ** The rest of the client: [download_captcha_image] and [main] *)

(** Lines 115-120 of [extract_captcha_image]: the URL of an image that the
    page gives by reference. *)
Definition image_url (src : str) : str :=
  if startswith (u "/") src then BASE_URL ++ src
  else if startswith (u "http") src then src
  else BASE_URL ++ u "/" ++ src.

(** What the parser of the command line hands to [main]. *)
Record Args := {
  arg_egn : str;
  arg_last_name : str;
  arg_manual : bool;               (* --manual *)
  arg_captcha : option str;        (* --captcha *)
  arg_retries : Z                  (* --retries, 15 when not given *)
}.

Section ClientRest.
Context {U : Unicode} {P : Platform}.

Definition download_captcha_image (image_url : str) : M Image :=
  bind (http_get CaptchaImage image_url) (fun response =>
  bind (raise_for_status response) (fun _ =>
  lift (Image_open (content response)))).

(** Lines 231-239 of [_do_query]: the URL of a query. *)
Definition query_url (egn last_name captcha : str) : str :=
  BASE_URL ++ SERVICE_PATH ++ u "?"
  ++ urlencode [(u "type", u "6729"); (u "egn", egn); (u "name", last_name);
                (u "captcha", captcha); (u "submitted", u "1")].

(** [main], from the parsed arguments to the exit status of the process:
    [exit(1)] after a failed result (SystemExit passes the handler, which
    catches Exception only), [exit(1)] in the handler, 0 when [main] returns. *)
Definition main (args : Args) : state -> Z * state :=
  fun st =>
    let client := __init__ (negb (arg_manual args)) (arg_retries args) in
    match query_documents client (arg_egn args) (arg_last_name args)
            (arg_captcha args) st with
    | (Ret result, st') => if success result then (0%Z, st') else (1%Z, st')
    | (Raise e, st') => (1%Z, st')
    end.

(** A result as [_do_query] builds it: parsed from the body it carries, for
    the id number and surname of the call. *)
Definition built_from_its_body (id_number surname : str) (r : QueryResult) : Prop :=
  r = parse_response id_number surname (raw_html r) (BeautifulSoup (raw_html r)).
End ClientRest.

(* ================================================================== *)
(** ** The order of events in a call

    The retry orchestrator as a machine over the events of a trace: where a
    call stands, and which event may come next. *)

Inductive phase :=
| Idle                                       (* nothing done yet *)
| Reset                                      (* cookies cleared *)
| Form                                       (* form page requested *)
| ImageRequested                             (* CAPTCHA image requested *)
| Prompted                                   (* operator asked *)
| Submitted (in_loop : bool)                 (* query requested *)
| Evaluated (in_loop : bool) (r : QueryResult).

(** A result after which the loop goes round again. *)
Definition may_retry (in_loop : bool) (r : QueryResult) : bool :=
  in_loop && negb (success r) && is_captcha_error r.

Definition step (manual : bool) (p : phase) (e : event) : option phase :=
  match p, e with
  | Idle, CookiesCleared => Some Reset
  | Idle, HttpGet Query _ => Some (Submitted false)
  | Evaluated in_loop r, CookiesCleared =>
      if may_retry in_loop r then Some Reset else None
  | Reset, HttpGet FormPage url =>
      if str_eqb url (BASE_URL ++ SERVICE_PATH) then Some Form else None
  | Form, HttpGet CaptchaImage _ => Some ImageRequested
  | Form, OperatorPrompt => if manual then Some Prompted else None
  | ImageRequested, OperatorPrompt => if manual then Some Prompted else None
  | Form, HttpGet Query _ => Some (Submitted true)
  | ImageRequested, HttpGet Query _ => Some (Submitted true)
  | Prompted, HttpGet Query _ => Some (Submitted false)
  | Submitted in_loop, Parsed r => Some (Evaluated in_loop r)
  | _, _ => None
  end.

Fixpoint follow (manual : bool) (p : phase) (t : list event) : option phase :=
  match t with
  | [] => Some p
  | e :: t' =>
      match step manual p e with
      | Some q => follow manual q t'
      | None => None
      end
  end.

(** How a call that stopped in phase [p] ended. *)
Definition ended (p : phase) (o : outcome QueryResult) : Prop :=
  match p with
  | Evaluated _ r => o = Ret r
  | Idle => o = Raise (UnboundLocalError (u "result"))
  | Form | ImageRequested | Submitted _ => exists e, o = Raise e
  | Reset | Prompted => False
  end.

Section PassTails.
Context {U : Unicode} {P : Platform}.

(** What an event of a call for [id_number] and [surname] looks like. *)
Definition event_of_call (id_number surname : str) (e : event) : Prop :=
  match e with
  | HttpGet FormPage url => url = BASE_URL ++ SERVICE_PATH
  | HttpGet CaptchaImage url => exists src, url = image_url src
  | HttpGet Query url => exists captcha, url = query_url id_number surname captcha
  | Parsed r => built_from_its_body id_number surname r
  | CookiesCleared | OperatorPrompt => True
  end.

(** A submission whose CAPTCHA text is made of ASCII letters and digits. *)
Definition clean_submission (id_number surname : str) (e : event) : Prop :=
  match e with
  | HttpGet Query url =>
      exists captcha,
        forallb ascii_alnum captcha = true
        /\ url = query_url id_number surname captcha
  | _ => True
  end.

(** What is submitted after the image step, and how the pass ends. *)
Definition automatic_tail (id_number surname : str) (tail : list event)
    (o : outcome flow) : Prop :=
  exists captcha,
    forallb ascii_alnum captcha = true
    /\ ((tail = [HttpGet Query (query_url id_number surname captcha)]
         /\ exists e, o = Raise e)
        \/ (exists r,
              tail = [HttpGet Query (query_url id_number surname captcha); Parsed r]
              /\ built_from_its_body id_number surname r
              /\ ((may_retry true r = false /\ o = Ret (Return r))
                  \/ (may_retry true r = true /\ o = Ret (Continue r))))).

Definition manual_tail (id_number surname : str) (tail : list event)
    (o : outcome flow) : Prop :=
  exists captcha,
    (tail = [OperatorPrompt; HttpGet Query (query_url id_number surname captcha)]
     /\ exists e, o = Raise e)
    \/ (exists r,
          tail = [OperatorPrompt;
                  HttpGet Query (query_url id_number surname captcha); Parsed r]
          /\ built_from_its_body id_number surname r
          /\ o = Ret (Return r)).
End PassTails.

(** The characters the base64 decoder looks at: the alphabet and the pad. *)
Definition b64_significant (c : char) : bool :=
  (c =? BASE64_PAD)
  || match table_a2b_base64 c with Some _ => true | None => false end.

(* ================================================================== *)
(** ** The traffic interceptor ([interceptor.py])

    The two handlers that [intercept_traffic] registers on the page, as
    functions on the lists they append to. *)

Module Interceptor.

Record Request := {
  url : str;
  method : str;
  headers : list (str * str);
  post_data : option str
}.

(** The dict appended to [captured_requests]. *)
Record RequestData := {
  req_url : str;
  req_method : str;
  req_headers : list (str * str);
  req_post_data : option str
}.

Record Response := {
  resp_url : str;
  resp_status : Z;
  resp_headers : list (str * str);
  resp_text : outcome str            (* await response.text() *)
}.

(** The dict appended to [captured_responses]. *)
Record ResponseData := {
  data_url : str;
  data_status : Z;
  data_headers : list (str * str);
  data_body : str
}.

Definition static_extensions : list str :=
  Eval vm_compute in
    [u ".js"; u ".css"; u ".png"; u ".jpg"; u ".woff"; u ".svg"; u ".woff2";
     u ".ttf"].

(** [any(ext in url for ext in [...])] *)
Definition is_static (url : str) : bool :=
  existsb (fun ext => contains ext url) static_extensions.

Definition request_data (request : Request) : RequestData :=
  {| req_url := url request;
     req_method := method request;
     req_headers := headers request;
     req_post_data :=
       if str_eqb (method request) (u "POST") then post_data request else None |}.

Definition handle_request (captured_requests : list RequestData)
    (request : Request) : list RequestData :=
  if is_static (url request) then captured_requests
  else captured_requests ++ [request_data request].

Definition handle_response (captured_responses : list ResponseData)
    (response : Response) : list ResponseData :=
  if is_static (resp_url response) then captured_responses
  else
    match resp_text response with
    | Ret body =>
        captured_responses
        ++ [{| data_url := resp_url response;
               data_status := resp_status response;
               data_headers := resp_headers response;
               data_body :=
                 if (2000 <? List.length body)%nat then firstn 2000 body
                 else body |}]
    | Raise _ => captured_responses
    end.

End Interceptor.

(* ================================================================== *)
(** * Properties *)

(** ** The matcher against the meaning of a pattern *)

Section RegexFacts.
Context {U : Unicode}.
Variable fl : flags.

Lemma star_greedy_sound (p : char -> bool) k s t :
  star_greedy p k s = Some t ->
  exists m s', s = m ++ s' /\ forallb p m = true /\ k s' = Some t.
Proof.
  revert t. induction s as [|x s IH]; intros t H; simpl in H.
  - exists [], []. auto.
  - destruct (p x) eqn:Hp.
    + destruct (star_greedy p k s) as [t'|] eqn:Hs.
      * injection H as <-.
        destruct (IH _ eq_refl) as (m & s' & -> & Hm & Hk).
        exists (x :: m), s'. simpl. rewrite Hp, Hm. auto.
      * exists [], (x :: s). auto.
    + exists [], (x :: s). auto.
Qed.

Lemma star_lazy_sound (p : char -> bool) k s t :
  star_lazy p k s = Some t ->
  exists m s', s = m ++ s' /\ forallb p m = true /\ k s' = Some t.
Proof.
  revert t. induction s as [|x s IH]; intros t H; simpl in H.
  - destruct (k []) eqn:Hk; [|discriminate].
    exists [], []. injection H as <-. auto.
  - destruct (k (x :: s)) eqn:Hk.
    + injection H as <-. exists [], (x :: s). auto.
    + destruct (p x) eqn:Hp; [|discriminate].
      destruct (IH _ H) as (m & s' & -> & Hm & Hk').
      exists (x :: m), s'. simpl. rewrite Hp, Hm. auto.
Qed.

Lemma star_greedy_complete (p : char -> bool) k m s' t :
  forallb p m = true -> k s' = Some t ->
  exists t', star_greedy p k (m ++ s') = Some t'.
Proof.
  intros Hm Hk. induction m as [|x m IH]; simpl.
  - destruct s' as [|y s'']; simpl; [eauto|].
    destruct (p y); [|eauto].
    destruct (star_greedy p k s''); eauto.
  - simpl in Hm. apply andb_true_iff in Hm as [Hx Hm]. rewrite Hx.
    destruct (IH Hm) as [t' ->]. eauto.
Qed.

Lemma star_lazy_complete (p : char -> bool) k m s' t :
  forallb p m = true -> k s' = Some t ->
  exists t', star_lazy p k (m ++ s') = Some t'.
Proof.
  intros Hm Hk. induction m as [|x m IH]; simpl.
  - destruct s'; simpl; rewrite Hk; eauto.
  - simpl in Hm. apply andb_true_iff in Hm as [Hx Hm].
    destruct (k (x :: m ++ s')); [eauto|]. rewrite Hx. auto.
Qed.

Lemma rmatch_sound r : forall k s t,
  rmatch fl r k s = Some t ->
  exists m s', s = m ++ s' /\ Matches fl r m /\ k s' = Some t.
Proof.
  induction r as [|a|r1 IH1 r2 IH2|r1 IH1 r2 IH2|a|a]; intros k s t H; simpl in H.
  - exists [], s. repeat split; auto. constructor.
  - destruct s as [|x s]; [discriminate|].
    destruct (atom_match fl a x) eqn:Ha; [|discriminate].
    exists [x], s. repeat split; auto. now constructor.
  - destruct (IH1 _ _ _ H) as (m1 & s1 & -> & M1 & H1).
    destruct (IH2 _ _ _ H1) as (m2 & s2 & -> & M2 & H2).
    exists (m1 ++ m2), s2. rewrite <- app_assoc. repeat split; auto.
    now constructor.
  - destruct (rmatch fl r1 k s) as [t1|] eqn:E1.
    + injection H as <-.
      destruct (IH1 _ _ _ E1) as (m & s' & -> & M & Hk).
      exists m, s'. repeat split; auto. now apply M_AltL.
    + destruct (IH2 _ _ _ H) as (m & s' & -> & M & Hk).
      exists m, s'. repeat split; auto. now apply M_AltR.
  - destruct s as [|x s]; [discriminate|].
    destruct (atom_match fl a x) eqn:Ha; [|discriminate].
    destruct (star_greedy_sound _ _ _ _ H) as (m & s' & -> & Hm & Hk).
    exists (x :: m), s'. repeat split; auto. now constructor.
  - destruct (star_lazy_sound _ _ _ _ H) as (m & s' & -> & Hm & Hk).
    exists m, s'. repeat split; auto. now constructor.
Qed.

Lemma rmatch_complete r m :
  Matches fl r m ->
  forall k s' t, k s' = Some t -> exists t', rmatch fl r k (m ++ s') = Some t'.
Proof.
  induction 1 as [|a x Ha|r1 r2 s1 s2 _ IH1 _ IH2|r1 r2 s _ IH|r1 r2 s _ IH
                  |a x s Ha Hs|a s Hs]; intros k s' t Hk; simpl.
  - eauto.
  - rewrite Ha. eauto.
  - destruct (IH2 _ _ _ Hk) as [t2 H2].
    rewrite <- app_assoc. exact (IH1 _ _ _ H2).
  - destruct (IH _ _ _ Hk) as [t1 ->]. eauto.
  - destruct (rmatch fl r1 k (s ++ s')); eauto.
  - rewrite Ha. eapply star_greedy_complete; eauto.
  - eapply star_lazy_complete; eauto.
Qed.

Lemma match_here_sound r s m :
  match_here fl r s = Some m -> exists post, s = m ++ post /\ Matches fl r m.
Proof.
  unfold match_here. destruct (rmatch fl r Some s) as [rest|] eqn:E; [|discriminate].
  intros [= <-].
  destruct (rmatch_sound _ _ _ _ E) as (m & s' & -> & M & [= ->]).
  exists rest. split; [|].
  - rewrite length_app, Nat.add_sub.
    rewrite firstn_app, firstn_all, Nat.sub_diag. simpl. now rewrite app_nil_r.
  - rewrite length_app, Nat.add_sub.
    rewrite firstn_app, firstn_all, Nat.sub_diag. simpl. now rewrite app_nil_r.
Qed.

Lemma match_here_complete r m post :
  Matches fl r m -> exists m', match_here fl r (m ++ post) = Some m'.
Proof.
  intros M. unfold match_here.
  destruct (rmatch_complete _ _ M Some post post eq_refl) as [t ->]. eauto.
Qed.

(** What the search returns is an occurrence of the pattern. *)
Lemma re_search_sound r s m :
  re_search fl r s = Some m ->
  exists pre post, s = pre ++ m ++ post /\ Matches fl r m.
Proof.
  induction s as [|x s IH]; simpl.
  - destruct (match_here fl r []) as [m'|] eqn:E; [|discriminate].
    intros [= <-]. destruct (match_here_sound _ _ _ E) as (post & Hs & M).
    exists [], post. auto.
  - destruct (match_here fl r (x :: s)) as [m'|] eqn:E.
    + intros [= <-]. destruct (match_here_sound _ _ _ E) as (post & Hs & M).
      exists [], post. auto.
    + intros H. destruct (IH H) as (pre & post & -> & M).
      exists (x :: pre), post. auto.
Qed.

(** Where the pattern occurs, the search finds a match. *)
Lemma re_search_complete r s :
  occurs fl r s -> exists m, re_search fl r s = Some m.
Proof.
  intros (pre & m & post & -> & M).
  induction pre as [|x pre IH].
  - simpl. destruct (match_here_complete r m post M) as [m' E].
    destruct (m ++ post); simpl; rewrite E; eauto.
  - simpl. destruct (match_here fl r (x :: pre ++ m ++ post)); eauto.
Qed.

Lemma search_gives_occurrence r s m :
  re_search fl r s = Some m -> occurs fl r s.
Proof.
  intros H. destruct (re_search_sound _ _ _ H) as (pre & post & Hs & M).
  exists pre, m, post. auto.
Qed.

Lemma matches_lit s m :
  Matches fl (lit s) m ->
  Forall2 (fun c x => atom_match fl (Lit c) x = true) s m.
Proof.
  revert m. induction s as [|c s IH]; intros m M; simpl in M.
  - inversion M; subst. constructor.
  - inversion M as [| |r1 r2 s1 s2 M1 M2| | | |]; subst.
    inversion M1; subst. simpl. constructor; auto.
Qed.
End RegexFacts.

(** ** Substrings *)

Lemma startswith_app p s : startswith p (p ++ s) = true.
Proof. induction p; simpl; auto. now rewrite N.eqb_refl. Qed.

Lemma contains_unfold needle hay :
  contains needle hay
  = startswith needle hay
    || match hay with [] => false | _ :: t => contains needle t end.
Proof. destruct hay; reflexivity. Qed.

Lemma contains_app needle pre post :
  contains needle (pre ++ needle ++ post) = true.
Proof.
  induction pre as [|x pre IH].
  - rewrite contains_unfold. simpl app. now rewrite startswith_app.
  - simpl. rewrite IH. apply orb_true_r.
Qed.

(** ** The result parser *)

Section ParserFacts.
Context {U : Unicode}.
Variables id_number surname body : str.

(** A container was found: its text is the result and is classified. *)
Lemma parse_container soup d :
  find_result_div soup = Some d ->
  let t := get_text (u " ") true d in
  parse_response id_number surname body soup
  = {| success := negb (has_error_token t);
       is_captcha_error := has_error_token t && contains tok_kapcha (lower t);
       egn := id_number; last_name := surname; result := t; raw_html := body |}.
Proof.
  intros H t. unfold parse_response. rewrite H. fold t.
  unfold has_error_token.
  destruct (contains tok_Greshka t || contains tok_Nevalidna t); reflexivity.
Qed.

(** No container, and the success pattern matches the page text. *)
Lemma parse_success_match soup m :
  find_result_div soup = None ->
  re_search re_DOTALL success_pattern (get_text [] false soup) = Some m ->
  parse_response id_number surname body soup
  = {| success := true; is_captcha_error := false;
       egn := id_number; last_name := surname; result := m; raw_html := body |}.
Proof. intros H E. unfold parse_response. now rewrite H, E. Qed.

(** No container, no success match, and the error pattern matches. *)
Lemma parse_error_match soup m :
  find_result_div soup = None ->
  re_search re_DOTALL success_pattern (get_text [] false soup) = None ->
  re_search re_DOTALL_I error_pattern (get_text [] false soup) = Some m ->
  parse_response id_number surname body soup
  = {| success := false; is_captcha_error := true;
       egn := id_number; last_name := surname; result := m; raw_html := body |}.
Proof. intros H E1 E2. unfold parse_response. now rewrite H, E1, E2. Qed.

(** Nothing found at all: the sentinel text, and no error flag. *)
Lemma parse_unparseable soup :
  find_result_div soup = None ->
  re_search re_DOTALL success_pattern (get_text [] false soup) = None ->
  re_search re_DOTALL_I error_pattern (get_text [] false soup) = None ->
  parse_response id_number surname body soup
  = {| success := true; is_captcha_error := false;
       egn := id_number; last_name := surname;
       result := could_not_parse; raw_html := body |}.
Proof. intros H E1 E2. unfold parse_response. now rewrite H, E1, E2. Qed.

Lemma error_match_ends_with_token m :
  Matches re_DOTALL_I error_pattern m ->
  exists pre w,
    m = pre ++ w /\ Forall2 (fun c x => re_ieq c x = true) tok_kapcha w.
Proof.
  assert (tail : forall tok m,
             Matches re_DOTALL_I
               (cats [lit tok; StarLazy Dot; lit tok_kapcha]) m ->
             exists pre w,
               m = pre ++ w
               /\ Forall2 (fun c x => re_ieq c x = true) tok_kapcha w).
  { intros tok m0 M. unfold cats in M.
    inversion M as [| |? ? s1 r1 _ M1| | | |]; subst.
    inversion M1 as [| |? ? s2 r2 _ M2| | | |]; subst.
    inversion M2 as [| |? ? s3 r3 M3 M4| | | |]; subst.
    inversion M4; subst.
    exists (s1 ++ s2), s3. split.
    - now rewrite app_nil_r, app_assoc.
    - exact (matches_lit re_DOTALL_I tok_kapcha s3 M3). }
  intros M. unfold error_pattern in M.
  inversion M as [| | |? ? ? M'|? ? ? M'| |]; subst;
    [apply (tail tok_Greshka) | apply (tail tok_Nevalidna)]; exact M'.
Qed.
End ParserFacts.

Section ParserClaims.
Import Scripted.

(** C1 (what the code does): a body with no container and no pattern,
    here the plain text "hello", is given the sentinel text "Could not
    parse result", yet the result is flagged as a success: the branch that
    writes the sentinel leaves the error flag unset. *)
Theorem unparseable_body_reported_successful :
  let r := @parse_response unicode egn0 name0 (u "hello") (plain (u "hello")) in
  find_result_div (U := unicode) (plain (u "hello")) = None
  /\ re_search (U := unicode) re_DOTALL success_pattern (u "hello") = None
  /\ re_search (U := unicode) re_DOTALL_I error_pattern (u "hello") = None
  /\ result r = could_not_parse
  /\ success r = true
  /\ is_captcha_error r = false.
Proof. vm_compute. repeat split. Qed.

(** C2 (as stated, refuted): a body whose text holds the success phrase
    but which also has an "alert" container gets the container's text as
    its result and, the container holding an error token, success=false. *)
Lemma success_phrase_beside_alert_is_failure :
  let soup := page [div_class "alert" "Грешка"; NavigableString received_text] in
  let r := @parse_response unicode egn0 name0 [] soup in
  re_search (U := unicode) re_DOTALL success_pattern
    (get_text (U := unicode) [] false soup) = Some received_text
  /\ success r = false
  /\ result r <> received_text.
Proof. vm_compute. repeat split. discriminate. Qed.

(** C3 (as stated, refuted): the result text taken from a success-pattern
    match may hold an error token and the captcha token; the result is
    then a success and no CAPTCHA error. *)
Lemma tokens_inside_success_phrase_not_classified :
  let soup := plain (u "След 01.01.2024 Грешка капча получен.") in
  let r := @parse_response unicode egn0 name0 [] soup in
  has_error_token (result r) = true
  /\ contains tok_kapcha (lower (Unicode := unicode) (result r)) = true
  /\ success r = true
  /\ is_captcha_error r = false.
Proof. vm_compute. repeat split. Qed.
End ParserClaims.

(** C2 (amended): when no named container is found and the page text holds
    an occurrence of the success pattern, the parser returns success=true,
    no CAPTCHA error, and a result text that is the phrase the search
    matched, itself an occurrence of the pattern in the page text. *)
Theorem success_pattern_without_container
    (U : Unicode) (id_number surname body : str) (soup : node) :
  find_result_div soup = None ->
  occurs re_DOTALL success_pattern (get_text [] false soup) ->
  success (parse_response id_number surname body soup) = true
  /\ is_captcha_error (parse_response id_number surname body soup) = false
  /\ re_search re_DOTALL success_pattern (get_text [] false soup)
     = Some (result (parse_response id_number surname body soup))
  /\ (exists pre post,
        get_text [] false soup
        = pre ++ result (parse_response id_number surname body soup) ++ post)
  /\ Matches re_DOTALL success_pattern
       (result (parse_response id_number surname body soup)).
Proof.
  intros Hdiv Hocc.
  destruct (re_search_complete _ _ _ Hocc) as [m Hm].
  rewrite (parse_success_match _ _ _ _ _ Hdiv Hm). simpl.
  destruct (re_search_sound _ _ _ _ Hm) as (pre & post & Htext & HM).
  repeat split; auto. exists pre, post. exact Htext.
Qed.

Lemma success_pattern_without_container_witness :
  success (@parse_response Scripted.unicode Scripted.egn0 Scripted.name0 []
             (Scripted.plain Scripted.received_text)) = true.
Proof.
  apply (success_pattern_without_container Scripted.unicode Scripted.egn0
           Scripted.name0 [] (Scripted.plain Scripted.received_text)).
  - reflexivity.
  - apply (search_gives_occurrence (U := Scripted.unicode) re_DOTALL
             success_pattern _ Scripted.received_text).
    vm_compute. reflexivity.
Defined.

(** C3 (amended): when the result text does not come from a success-pattern
    match (a named container is found, or the success pattern does not match
    the page text) and it holds an error token together with the captcha
    token, the parser returns is-captcha-error=true and success=false. *)
Theorem captcha_error_classified
    (U : Unicode) (id_number surname body : str) (soup : node) :
  (find_result_div soup = None ->
   re_search re_DOTALL success_pattern (get_text [] false soup) = None) ->
  has_error_token (result (parse_response id_number surname body soup)) = true ->
  contains tok_kapcha
    (lower (result (parse_response id_number surname body soup))) = true ->
  is_captcha_error (parse_response id_number surname body soup) = true
  /\ success (parse_response id_number surname body soup) = false.
Proof.
  intros Hns.
  destruct (find_result_div soup) as [d|] eqn:Hdiv.
  - rewrite (parse_container _ _ _ _ _ Hdiv). simpl.
    intros -> ->. auto.
  - specialize (Hns eq_refl).
    destruct (re_search re_DOTALL_I error_pattern (get_text [] false soup))
      as [m|] eqn:He.
    + rewrite (parse_error_match _ _ _ _ _ Hdiv Hns He). simpl. auto.
    + rewrite (parse_unparseable _ _ _ _ Hdiv Hns He). simpl.
      intros H. vm_compute in H. discriminate.
Qed.

Lemma captcha_error_classified_witness :
  is_captcha_error
    (@parse_response Scripted.unicode Scripted.egn0 Scripted.name0 []
       (Scripted.page [Scripted.div_class "alert" "Грешка: невалидна капча"]))
  = true
  /\ success
       (@parse_response Scripted.unicode Scripted.egn0 Scripted.name0 []
          (Scripted.page [Scripted.div_class "alert" "Грешка: невалидна капча"]))
     = false.
Proof.
  apply (captcha_error_classified Scripted.unicode Scripted.egn0 Scripted.name0 []
           (Scripted.page [Scripted.div_class "alert" "Грешка: невалидна капча"])).
  - intros H. vm_compute in H. discriminate.
  - vm_compute. reflexivity.
  - vm_compute. reflexivity.
Defined.

(** C5: on every path of the parser, a result flagged as a CAPTCHA error is
    not a success. *)
Theorem captcha_error_is_failure
    (U : Unicode) (id_number surname body : str) (soup : node) :
  is_captcha_error (parse_response id_number surname body soup) = true ->
  success (parse_response id_number surname body soup) = false.
Proof.
  unfold parse_response.
  destruct (find_result_div soup) as [d|].
  - destruct (contains tok_Greshka _ || contains tok_Nevalidna _); simpl;
      intros; congruence.
  - destruct (re_search re_DOTALL success_pattern _); simpl; [discriminate|].
    destruct (re_search re_DOTALL_I error_pattern _); simpl; intros; congruence.
Qed.

Lemma captcha_error_is_failure_witness :
  success
    (@parse_response Scripted.unicode Scripted.egn0 Scripted.name0 []
       (Scripted.plain Scripted.captcha_error_text)) = false.
Proof.
  apply (captcha_error_is_failure Scripted.unicode Scripted.egn0 Scripted.name0 []
           (Scripted.plain Scripted.captcha_error_text)).
  vm_compute. reflexivity.
Defined.

(** ** Base64: decoding what was encoded *)

Section Base64Facts.

Lemma in_enumeration (n : nat) (x : N) :
  x < N.of_nat n -> In x (map N.of_nat (seq 0 n)).
Proof.
  intros H. rewrite <- (N2Nat.id x). apply in_map. apply in_seq. lia.
Qed.

Lemma checked_below (n : nat) (P : N -> bool) :
  forallb P (map N.of_nat (seq 0 n)) = true ->
  forall x, x < N.of_nat n -> P x = true.
Proof.
  intros H x Hx. rewrite forallb_forall in H. apply H.
  now apply in_enumeration.
Qed.

Lemma checked_below2 (n : nat) (P : N -> N -> bool) :
  forallb (fun a => forallb (P a) (map N.of_nat (seq 0 n)))
    (map N.of_nat (seq 0 n)) = true ->
  forall a b, a < N.of_nat n -> b < N.of_nat n -> P a b = true.
Proof.
  intros H a b Ha Hb.
  apply (checked_below n (P a)); auto.
  apply (checked_below n (fun a => forallb (P a) (map N.of_nat (seq 0 n)))); auto.
Qed.

(** The alphabet and the decoding table are inverse to each other. *)
Lemma sextet_table v :
  v < 64 ->
  (b64_char v =? BASE64_PAD) = false
  /\ table_a2b_base64 (b64_char v) = Some v
  /\ (b64_char v <? 128) = true.
Proof.
  intros H.
  assert (C : (negb (b64_char v =? BASE64_PAD)
               && match table_a2b_base64 (b64_char v) with
                  | Some w => w =? v
                  | None => false
                  end
               && (b64_char v <? 128)) = true).
  { apply (checked_below 64
             (fun v => negb (b64_char v =? BASE64_PAD)
                       && match table_a2b_base64 (b64_char v) with
                          | Some w => w =? v
                          | None => false
                          end
                       && (b64_char v <? 128))); [vm_compute; reflexivity|exact H]. }
  apply andb_true_iff in C as [C C3]. apply andb_true_iff in C as [C1 C2].
  apply negb_true_iff in C1.
  destruct (table_a2b_base64 (b64_char v)) as [w|]; [|discriminate].
  apply N.eqb_eq in C2. subst w. auto.
Qed.

(** The bit arithmetic of one group, checked on every pair of bytes. *)
Lemma first_byte a b :
  a < 256 -> b < 256 ->
  N.shiftr a 2 < 64
  /\ N.lor (N.shiftl (N.land a 3) 4) (N.shiftr b 4) < 64
  /\ N.shiftl (N.land a 3) 4 < 64
  /\ N.land (N.lor (N.shiftl (N.shiftr a 2) 2)
               (N.shiftr (N.lor (N.shiftl (N.land a 3) 4) (N.shiftr b 4)) 4)) 255
     = a
  /\ N.land (N.lor (N.shiftl (N.shiftr a 2) 2)
               (N.shiftr (N.shiftl (N.land a 3) 4) 4)) 255
     = a
  /\ N.land (N.lor (N.shiftl (N.land a 3) 4) (N.shiftr b 4)) 15 = N.shiftr b 4.
Proof.
  intros Ha Hb.
  pose (P := fun a b =>
    (N.shiftr a 2 <? 64)
    && (N.lor (N.shiftl (N.land a 3) 4) (N.shiftr b 4) <? 64)
    && (N.shiftl (N.land a 3) 4 <? 64)
    && (N.land (N.lor (N.shiftl (N.shiftr a 2) 2)
                  (N.shiftr (N.lor (N.shiftl (N.land a 3) 4) (N.shiftr b 4)) 4)) 255
        =? a)
    && (N.land (N.lor (N.shiftl (N.shiftr a 2) 2)
                  (N.shiftr (N.shiftl (N.land a 3) 4) 4)) 255
        =? a)
    && (N.land (N.lor (N.shiftl (N.land a 3) 4) (N.shiftr b 4)) 15
        =? N.shiftr b 4)).
  assert (C : P a b = true).
  { apply (checked_below2 256 P); [vm_compute; reflexivity| |]; assumption. }
  unfold P in C.
  repeat (apply andb_true_iff in C as [C ?]).
  repeat match goal with
         | H : (_ <? _) = true |- _ => apply N.ltb_lt in H
         | H : (_ =? _) = true |- _ => apply N.eqb_eq in H
         end.
  repeat split; assumption.
Qed.

Lemma later_bytes b c :
  b < 256 -> c < 256 ->
  N.lor (N.shiftl (N.land b 15) 2) (N.shiftr c 6) < 64
  /\ N.shiftl (N.land b 15) 2 < 64
  /\ N.land c 63 < 64
  /\ N.land (N.lor (N.shiftl (N.shiftr b 4) 4)
               (N.shiftr (N.lor (N.shiftl (N.land b 15) 2) (N.shiftr c 6)) 2)) 255
     = b
  /\ N.land (N.lor (N.shiftl (N.shiftr b 4) 4)
               (N.shiftr (N.shiftl (N.land b 15) 2) 2)) 255
     = b
  /\ N.land (N.lor (N.shiftl
                      (N.land (N.lor (N.shiftl (N.land b 15) 2) (N.shiftr c 6)) 3) 6)
               (N.land c 63)) 255
     = c.
Proof.
  intros Hb Hc.
  pose (P := fun b c =>
    (N.lor (N.shiftl (N.land b 15) 2) (N.shiftr c 6) <? 64)
    && (N.shiftl (N.land b 15) 2 <? 64)
    && (N.land c 63 <? 64)
    && (N.land (N.lor (N.shiftl (N.shiftr b 4) 4)
                  (N.shiftr (N.lor (N.shiftl (N.land b 15) 2) (N.shiftr c 6)) 2)) 255
        =? b)
    && (N.land (N.lor (N.shiftl (N.shiftr b 4) 4)
                  (N.shiftr (N.shiftl (N.land b 15) 2) 2)) 255
        =? b)
    && (N.land (N.lor (N.shiftl
                         (N.land (N.lor (N.shiftl (N.land b 15) 2) (N.shiftr c 6)) 3) 6)
                  (N.land c 63)) 255
        =? c)).
  assert (C : P b c = true).
  { apply (checked_below2 256 P); [vm_compute; reflexivity| |]; assumption. }
  unfold P in C.
  repeat (apply andb_true_iff in C as [C ?]).
  repeat match goal with
         | H : (_ <? _) = true |- _ => apply N.ltb_lt in H
         | H : (_ =? _) = true |- _ => apply N.eqb_eq in H
         end.
  repeat split; assumption.
Qed.

(** One step of the decoding loop on a character of the alphabet. *)
Lemma loop_on_sextet v rest quad_pos leftchar pads bin_data :
  v < 64 ->
  a2b_base64_loop (b64_char v :: rest) quad_pos leftchar pads bin_data
  = match quad_pos with
    | O => a2b_base64_loop rest 1 v 0 bin_data
    | 1%nat =>
        a2b_base64_loop rest 2 (N.land v 15) 0
          (bin_data ++ [N.land (N.lor (N.shiftl leftchar 2) (N.shiftr v 4)) 255])
    | 2%nat =>
        a2b_base64_loop rest 3 (N.land v 3) 0
          (bin_data ++ [N.land (N.lor (N.shiftl leftchar 4) (N.shiftr v 2)) 255])
    | _ =>
        a2b_base64_loop rest 0 0 0
          (bin_data ++ [N.land (N.lor (N.shiftl leftchar 6) v) 255])
    end.
Proof.
  intros H. destruct (sextet_table v H) as (E1 & E2 & _).
  cbn [a2b_base64_loop]. rewrite E1, E2. reflexivity.
Qed.

Lemma decode_encoded_from (n : nat) : forall (payload : bytes) (bin_data : bytes),
  (List.length payload <= n)%nat ->
  Forall (fun b => b < 256) payload ->
  a2b_base64_loop (b64encode payload) 0 0 0 bin_data = Ret (bin_data ++ payload).
Proof.
  induction n as [|n IH]; intros payload bin_data Hlen Hb.
  - destruct payload; [|simpl in Hlen; lia]. simpl. now rewrite app_nil_r.
  - destruct payload as [|a [|b [|c rest]]].
    + simpl. now rewrite app_nil_r.
    + inversion Hb as [|? ? Ha _]; subst.
      destruct (first_byte a 0 Ha ltac:(lia)) as (A1 & _ & A3 & _ & A5 & _).
      cbn [b64encode].
      rewrite (loop_on_sextet _ _ _ _ _ _ A1).
      rewrite (loop_on_sextet _ _ _ _ _ _ A3).
      rewrite A5. reflexivity.
    + inversion Hb as [|? ? Ha Hb']; subst.
      inversion Hb' as [|? ? Hb0 _]; subst.
      destruct (first_byte a b Ha Hb0) as (A1 & A2 & _ & A4 & _ & A6).
      destruct (later_bytes b 0 Hb0 ltac:(lia)) as (_ & B2 & _ & _ & B5 & _).
      cbn [b64encode].
      rewrite (loop_on_sextet _ _ _ _ _ _ A1).
      rewrite (loop_on_sextet _ _ _ _ _ _ A2).
      rewrite (loop_on_sextet _ _ _ _ _ _ B2).
      rewrite A4, A6, B5. cbn. now rewrite <- app_assoc.
    + inversion Hb as [|? ? Ha Hb']; subst.
      inversion Hb' as [|? ? Hb0 Hb'']; subst.
      inversion Hb'' as [|? ? Hc Hrest]; subst.
      destruct (first_byte a b Ha Hb0) as (A1 & A2 & _ & A4 & _ & A6).
      destruct (later_bytes b c Hb0 Hc) as (B1 & _ & B3 & B4 & _ & B6).
      cbn [b64encode].
      rewrite (loop_on_sextet _ _ _ _ _ _ A1).
      rewrite (loop_on_sextet _ _ _ _ _ _ A2).
      rewrite (loop_on_sextet _ _ _ _ _ _ B1).
      rewrite (loop_on_sextet _ _ _ _ _ _ B3).
      rewrite A4, A6, B4, B6.
      rewrite IH; [|simpl in Hlen; lia|assumption].
      now rewrite <- !app_assoc.
Qed.

Lemma encoded_is_ascii (n : nat) : forall payload : bytes,
  (List.length payload <= n)%nat ->
  Forall (fun b => b < 256) payload ->
  forallb (fun c => c <? 128) (b64encode payload) = true.
Proof.
  induction n as [|n IH]; intros payload Hlen Hb.
  - destruct payload; [reflexivity|simpl in Hlen; lia].
  - destruct payload as [|a [|b [|c rest]]].
    + reflexivity.
    + inversion Hb as [|? ? Ha _]; subst.
      destruct (first_byte a 0 Ha ltac:(lia)) as (A1 & _ & A3 & _).
      cbn [b64encode forallb].
      destruct (sextet_table _ A1) as (_ & _ & ->).
      destruct (sextet_table _ A3) as (_ & _ & ->). reflexivity.
    + inversion Hb as [|? ? Ha Hb']; subst.
      inversion Hb' as [|? ? Hb0 _]; subst.
      destruct (first_byte a b Ha Hb0) as (A1 & A2 & _).
      destruct (later_bytes b 0 Hb0 ltac:(lia)) as (_ & B2 & _).
      cbn [b64encode forallb].
      destruct (sextet_table _ A1) as (_ & _ & ->).
      destruct (sextet_table _ A2) as (_ & _ & ->).
      destruct (sextet_table _ B2) as (_ & _ & ->). reflexivity.
    + inversion Hb as [|? ? Ha Hb']; subst.
      inversion Hb' as [|? ? Hb0 Hb'']; subst.
      inversion Hb'' as [|? ? Hc Hrest]; subst.
      destruct (first_byte a b Ha Hb0) as (A1 & A2 & _).
      destruct (later_bytes b c Hb0 Hc) as (B1 & _ & B3 & _).
      cbn [b64encode forallb].
      destruct (sextet_table _ A1) as (_ & _ & ->).
      destruct (sextet_table _ A2) as (_ & _ & ->).
      destruct (sextet_table _ B1) as (_ & _ & ->).
      destruct (sextet_table _ B3) as (_ & _ & ->).
      rewrite IH; [reflexivity|simpl in Hlen; lia|assumption].
Qed.

(** [b64decode] undoes [b64encode]. *)
Lemma b64decode_b64encode (payload : bytes) :
  Forall (fun b => b < 256) payload ->
  b64decode (b64encode payload) = Ret payload.
Proof.
  intros Hb. unfold b64decode, a2b_base64.
  rewrite (encoded_is_ascii _ payload (le_n _) Hb).
  now rewrite (decode_encoded_from _ payload [] (le_n _) Hb).
Qed.

Lemma partition_at_first sep header rest :
  forallb (fun c => negb (c =? sep)) header = true ->
  partition_at sep (header ++ sep :: rest) = Some (header, rest).
Proof.
  induction header as [|x header IH]; simpl; intros H.
  - now rewrite N.eqb_refl.
  - apply andb_true_iff in H as [Hx H]. apply negb_true_iff in Hx.
    rewrite Hx, (IH H). reflexivity.
Qed.

Lemma startswith_longer p s rest :
  startswith p s = true -> startswith p (s ++ rest) = true.
Proof.
  revert s. induction p as [|x p IH]; intros [|y s]; simpl; auto; try discriminate.
  intros H. apply andb_true_iff in H as [-> H]. simpl. auto.
Qed.
End Base64Facts.

(** C9: when the located image element carries a base64 data URI (a header
    that starts with "data:image" and has no comma, a comma, the RFC 4648
    encoding of the image bytes), the bytes the extractor decodes are the
    encoded bytes, and they are what is handed to the image decoder. *)
Theorem inline_image_bytes_round_trip
    (U : Unicode) (P : Platform) (soup captcha_img : node)
    (header : str) (payload : bytes) (st : state) :
  find_captcha_img soup = Some captcha_img ->
  truthy_src captcha_img = Some (header ++ [44] ++ b64encode payload) ->
  startswith (u "data:image") header = true ->
  forallb (fun c => negb (c =? 44)) header = true ->
  Forall (fun b => b < 256) payload ->
  data_uri_payload (header ++ [44] ++ b64encode payload) = Ret payload
  /\ extract_captcha_image soup st
     = (match Image_open payload with
        | Ret image => Ret (Some image)
        | Raise e => Raise e
        end, st).
Proof.
  intros Himg Hsrc Hprefix Hcomma Hbytes.
  assert (Hpayload :
            data_uri_payload (header ++ [44] ++ b64encode payload) = Ret payload).
  { unfold data_uri_payload, split_1. simpl app.
    rewrite (partition_at_first _ _ _ Hcomma). simpl.
    now apply b64decode_b64encode. }
  split; [exact Hpayload|].
  unfold extract_captcha_image. rewrite Himg, Hsrc.
  rewrite (startswith_longer _ _ _ Hprefix).
  unfold bind, lift. rewrite Hpayload.
  destruct (Image_open payload); reflexivity.
Qed.

Lemma inline_image_bytes_round_trip_witness :
  data_uri_payload (u "data:image/png;base64" ++ [44] ++ b64encode Scripted.png)
  = Ret Scripted.png.
Proof.
  refine (proj1 (inline_image_bytes_round_trip Scripted.unicode
                   (Scripted.platform true false)
                   (Scripted.parse Scripted.form_text)
                   (Scripted.captcha_img
                      (u "data:image/png;base64," ++ b64encode Scripted.png))
                   (u "data:image/png;base64") Scripted.png
                   (@start (Scripted.platform true false) []) _ _ _ _ _)).
  - vm_compute. reflexivity.
  - vm_compute. reflexivity.
  - vm_compute. reflexivity.
  - vm_compute. reflexivity.
  - repeat constructor.
Defined.

(** ** Traces of the client's computations *)

Section ClientFacts.
Context {U : Unicode} {P : Platform}.

Lemma bind_inv {A B} (m : M A) (k : A -> M B) st o st' :
  bind m k st = (o, st') ->
  (exists e, m st = (Raise e, st') /\ o = Raise e)
  \/ (exists a st1, m st = (Ret a, st1) /\ k a st1 = (o, st')).
Proof.
  unfold bind. destruct (m st) as [[a|e] st1]; intros H.
  - right. eauto.
  - left. injection H as <- <-. eauto.
Qed.

Lemma form_fetches_app l1 l2 :
  form_fetches (l1 ++ l2) = (form_fetches l1 + form_fetches l2)%nat.
Proof. unfold form_fetches. now rewrite filter_app, length_app. Qed.

Lemma submissions_app l1 l2 :
  submissions (l1 ++ l2) = (submissions l1 + submissions l2)%nat.
Proof. unfold submissions. now rewrite filter_app, length_app. Qed.

Lemma results_of_app l1 l2 :
  results_of (l1 ++ l2) = results_of l1 ++ results_of l2.
Proof.
  induction l1 as [|e l1 IH]; simpl; auto.
  destruct e; simpl; now rewrite ?IH.
Qed.

Lemma http_get_spec kind url st o st' :
  http_get kind url st = (o, st') ->
  trace st' = trace st ++ [HttpGet kind url].
Proof.
  unfold http_get. destruct (session_get url (world st)) as [o1 w].
  intros [= <- <-]. reflexivity.
Qed.

Lemma raise_for_status_spec response st o st' :
  raise_for_status response st = (o, st') -> st' = st.
Proof.
  unfold raise_for_status, raise, ret.
  destruct (_ && _)%bool; intros [= <- <-]; reflexivity.
Qed.

Lemma lift_spec {A} (x : outcome A) st o st' :
  lift x st = (o, st') -> o = x /\ st' = st.
Proof. unfold lift. intros [= <- <-]. auto. Qed.

Lemma ret_spec {A} (a : A) st o st' :
  ret a st = (o, st') -> o = Ret a /\ st' = st.
Proof. unfold ret. intros [= <- <-]. auto. Qed.

(** A query is one request; if it returns, the result is recorded last. *)
Lemma do_query_spec id_number surname captcha st o st' :
  _do_query id_number surname captcha st = (o, st') ->
  exists url,
    (trace st' = trace st ++ [HttpGet Query url] /\ exists e, o = Raise e)
    \/ (exists r,
          trace st' = trace st ++ [HttpGet Query url; Parsed r] /\ o = Ret r).
Proof.
  unfold _do_query. intros H.
  apply bind_inv in H as [(e & H1 & ->)|(response & st1 & H1 & H)].
  - eexists. left. split; [exact (http_get_spec _ _ _ _ _ H1)|eauto].
  - pose proof (http_get_spec _ _ _ _ _ H1) as T1.
    apply bind_inv in H as [(e & H2 & ->)|([] & st2 & H2 & H)].
    + apply raise_for_status_spec in H2 as ->.
      eexists. left. split; [exact T1|eauto].
    + apply raise_for_status_spec in H2 as ->.
      unfold bind, emit, ret in H. injection H as <- <-.
      eexists. right. eexists. split; [|reflexivity].
      simpl. rewrite T1, <- app_assoc. reflexivity.
Qed.

Lemma get_form_page_spec st o st' :
  get_form_page st = (o, st') ->
  exists url, trace st' = trace st ++ [HttpGet FormPage url].
Proof.
  unfold get_form_page. intros H.
  apply bind_inv in H as [(e & H1 & ->)|(response & st1 & H1 & H)].
  - eexists. exact (http_get_spec _ _ _ _ _ H1).
  - pose proof (http_get_spec _ _ _ _ _ H1) as T1.
    apply bind_inv in H as [(e & H2 & ->)|([] & st2 & H2 & H)].
    + apply raise_for_status_spec in H2 as ->. eauto.
    + apply raise_for_status_spec in H2 as ->.
      apply ret_spec in H as [_ ->]. eauto.
Qed.

(** Extracting the image fetches no form page and submits nothing. *)
Lemma extract_captcha_image_spec soup st o st' :
  extract_captcha_image soup st = (o, st') ->
  exists l,
    trace st' = trace st ++ l
    /\ form_fetches l = 0%nat /\ submissions l = 0%nat /\ results_of l = [].
Proof.
  unfold extract_captcha_image. intros H.
  destruct (find_captcha_img soup) as [img|];
    [|apply ret_spec in H as [_ ->]; exists []; now rewrite app_nil_r].
  destruct (truthy_src img) as [src|];
    [|apply ret_spec in H as [_ ->]; exists []; now rewrite app_nil_r].
  destruct (startswith (u "data:image") src).
  - exists []. rewrite app_nil_r. repeat split; auto. f_equal.
    apply bind_inv in H as [(e & H1 & ->)|(data & st1 & H1 & H)].
    + now apply lift_spec in H1 as [_ ->].
    + apply lift_spec in H1 as [_ ->].
      apply bind_inv in H as [(e & H1 & ->)|(image & st2 & H1 & H)].
      * now apply lift_spec in H1 as [_ ->].
      * apply lift_spec in H1 as [_ ->]. now apply ret_spec in H as [_ ->].
  - apply bind_inv in H as [(e & H1 & ->)|(response & st1 & H1 & H)].
    + eexists. split; [exact (http_get_spec _ _ _ _ _ H1)|auto].
    + pose proof (http_get_spec _ _ _ _ _ H1) as T1.
      assert (E : st' = st1).
      { apply bind_inv in H as [(e & H2 & ->)|([] & st2 & H2 & H)].
        - now apply raise_for_status_spec in H2.
        - apply raise_for_status_spec in H2 as ->.
          apply bind_inv in H as [(e & H2 & ->)|(image & st3 & H2 & H)].
          + now apply lift_spec in H2 as [_ ->].
          + apply lift_spec in H2 as [_ ->]. now apply ret_spec in H as [_ ->]. }
      subst st'. eexists. split; [exact T1|auto].
Qed.

Lemma solve_captcha_manual_spec image st o st' :
  solve_captcha_manual image st = (o, st') ->
  trace st' = trace st ++ [OperatorPrompt].
Proof.
  unfold solve_captcha_manual. destruct (operator image (world st)).
  intros [= <- <-]. reflexivity.
Qed.
(** Submit and evaluate: one request, and [continue] only on a CAPTCHA
    failure. *)
Lemma submit_and_evaluate_spec id_number surname captcha st o st' :
  submit_and_evaluate id_number surname captcha st = (o, st') ->
  exists url,
    (trace st' = trace st ++ [HttpGet Query url] /\ exists e, o = Raise e)
    \/ (exists r,
          trace st' = trace st ++ [HttpGet Query url; Parsed r]
          /\ (o = Ret (Return r) \/ (o = Ret (Continue r) /\ captcha_failure r))).
Proof.
  unfold submit_and_evaluate. intros H.
  apply bind_inv in H as [(e & H1 & ->)|(r & st1 & H1 & H)];
    apply do_query_spec in H1 as [url [[T [e' E]]|[r' [T E]]]];
    try discriminate; exists url.
  - left. eauto.
  - injection E as ->.
    assert (E : st' = st1
                /\ (o = Ret (Return r')
                    \/ (o = Ret (Continue r') /\ captcha_failure r'))).
    { destruct (success r') eqn:Hs.
      - apply ret_spec in H as [-> ->]. auto.
      - destruct (is_captcha_error r') eqn:Hc;
          apply ret_spec in H as [-> ->]; split; auto.
        right. split; [reflexivity|split; assumption]. }
    destruct E as [-> E]. right. exists r'. auto.
Qed.

(** One pass through the loop body: exactly one form page is fetched; the
    pass either raises with no result recorded, or ends right after the
    one result it recorded. *)
Lemma attempt_body_spec self id_number surname attempt st o st' :
  attempt_body self id_number surname attempt st = (o, st') ->
  exists l,
    trace st' = trace st ++ l
    /\ form_fetches l = 1%nat
    /\ ((results_of l = [] /\ exists e, o = Raise e)
        \/ (exists pre r,
              l = pre ++ [Parsed r] /\ results_of pre = []
              /\ (o = Ret (Return r)
                  \/ (o = Ret (Continue r) /\ captcha_failure r)))).
Proof.
  unfold attempt_body. intros H.
  apply bind_inv in H as [(e & H1 & ->)|([] & st1 & H1 & H)];
    [discriminate H1|].
  assert (T1 : trace st1 = trace st ++ [CookiesCleared])
    by (unfold clear_cookies in H1; now injection H1 as <-).
  clear H1.
  apply bind_inv in H as [(e & H2 & ->)|(soup & st2 & H2 & H)].
  { apply get_form_page_spec in H2 as [url T2].
    exists [CookiesCleared; HttpGet FormPage url].
    rewrite T2, T1, <- app_assoc. repeat split. left. eauto. }
  apply get_form_page_spec in H2 as [url T2].
  apply bind_inv in H as [(e & H3 & ->)|(image & st3 & H3 & H)].
  { apply extract_captcha_image_spec in H3 as (l3 & T3 & F3 & _ & R3).
    exists ([CookiesCleared; HttpGet FormPage url] ++ l3).
    rewrite T3, T2, T1, <- !app_assoc. split; [reflexivity|].
    rewrite form_fetches_app, results_of_app, F3, R3. repeat split. left. eauto. }
  apply extract_captcha_image_spec in H3 as (l3 & T3 & F3 & _ & R3).
  assert (T : trace st3 = trace st ++ ([CookiesCleared; HttpGet FormPage url] ++ l3))
    by (rewrite T3, T2, T1, <- !app_assoc; reflexivity).
  assert (F : form_fetches ([CookiesCleared; HttpGet FormPage url] ++ l3) = 1%nat)
    by (rewrite form_fetches_app, F3; reflexivity).
  assert (R : results_of ([CookiesCleared; HttpGet FormPage url] ++ l3) = [])
    by (rewrite results_of_app, R3; reflexivity).
  clear T1 T2 T3 F3 R3.
  set (l0 := [CookiesCleared; HttpGet FormPage url] ++ l3) in *.
  assert (evaluate : forall c,
             submit_and_evaluate id_number surname c st3 = (o, st') ->
             exists l,
               trace st' = trace st ++ l /\ form_fetches l = 1%nat
               /\ ((results_of l = [] /\ exists e, o = Raise e)
                   \/ (exists pre r,
                         l = pre ++ [Parsed r] /\ results_of pre = []
                         /\ (o = Ret (Return r)
                             \/ (o = Ret (Continue r) /\ captcha_failure r))))).
  { intros c Hq.
    apply submit_and_evaluate_spec in Hq as [qurl [[Tq [e E]]|[r [Tq E]]]].
    - exists (l0 ++ [HttpGet Query qurl]).
      rewrite Tq, T, <- !app_assoc. split; [reflexivity|].
      rewrite form_fetches_app, results_of_app, F, R.
      repeat split. left. eauto.
    - exists ((l0 ++ [HttpGet Query qurl]) ++ [Parsed r]).
      rewrite Tq, T, <- !app_assoc. split; [reflexivity|].
      rewrite !form_fetches_app, F. split; [reflexivity|].
      right. exists (l0 ++ [HttpGet Query qurl]), r.
      rewrite <- !app_assoc. split; [reflexivity|].
      rewrite results_of_app, R. auto. }
  destruct image as [image|].
  - destruct (use_ocr self).
    + apply bind_inv in H as [(e & H4 & ->)|(captcha & st4 & H4 & H)].
      * apply lift_spec in H4 as [_ ->].
        exists l0. repeat split; auto. left. eauto.
      * apply lift_spec in H4 as [_ ->]. exact (evaluate captcha H).
    + apply bind_inv in H as [(e & H4 & ->)|(captcha & st4 & H4 & H)];
        [unfold solve_captcha_manual in H4;
         destruct (operator image (world st3)); discriminate|].
      apply solve_captcha_manual_spec in H4 as T4.
      apply bind_inv in H as [(e & H5 & ->)|(r & st5 & H5 & H)];
        apply do_query_spec in H5 as [qurl [[T5 [e' E]]|[r' [T5 E]]]];
        try discriminate.
      * exists (l0 ++ [OperatorPrompt; HttpGet Query qurl]).
        rewrite T5, T4, T, <- !app_assoc. split; [reflexivity|].
        rewrite form_fetches_app, results_of_app, F, R. repeat split. left. eauto.
      * injection E as ->. apply ret_spec in H as [-> ->].
        exists ((l0 ++ [OperatorPrompt; HttpGet Query qurl]) ++ [Parsed r']).
        rewrite T5, T4, T, <- !app_assoc. split; [reflexivity|].
        rewrite !form_fetches_app, F. split; [reflexivity|].
        right. exists (l0 ++ [OperatorPrompt; HttpGet Query qurl]), r'.
        rewrite <- !app_assoc. split; [reflexivity|].
        rewrite results_of_app, R. auto.
  - exact (evaluate [] H).
Qed.
End ClientFacts.

(** ** The retry loop *)

Section LoopFacts.
Context {U : Unicode} {P : Platform}.

Lemma no_results_no_retry pre t :
  results_of pre = [] ->
  retried_only_on_captcha t -> retried_only_on_captcha (pre ++ t).
Proof.
  induction pre as [|e pre IH]; simpl; auto.
  destruct e; simpl; auto. discriminate.
Qed.

Lemma no_results_retried pre : results_of pre = [] -> retried_only_on_captcha pre.
Proof.
  intros H. rewrite <- (app_nil_r pre). now apply no_results_no_retry.
Qed.

Lemma followed_result_was_captcha_failure l1 r l2 :
  retried_only_on_captcha (l1 ++ Parsed r :: l2) -> l2 <> [] -> captcha_failure r.
Proof.
  induction l1 as [|e l1 IH]; simpl.
  - intros [H _]. exact H.
  - destruct e; simpl; auto. intros [_ H]. auto.
Qed.

Lemma final_result_last (rs : list QueryResult) : forall res,
  rs <> [] -> final_result res rs = nth_error rs (List.length rs - 1).
Proof.
  induction rs as [|r rs IH]; intros res H; [contradiction|].
  unfold final_result. simpl. fold (final_result (Some r) rs).
  destruct rs as [|r' rs']; [reflexivity|].
  rewrite IH by discriminate. simpl. now rewrite Nat.sub_0_r.
Qed.

Lemma length_range_from_1 (n : Z) : List.length (range 1 (n + 1)) = Z.to_nat n.
Proof. unfold range. rewrite length_map, length_seq. f_equal. lia. Qed.

(** The invariant of the loop, over the events [l] it adds to the trace. *)
Lemma for_attempts_spec self id_number surname : forall attempts res st o st',
  for_attempts self id_number surname attempts res st = (o, st') ->
  exists l,
    trace st' = trace st ++ l
    /\ (form_fetches l <= List.length attempts)%nat
    /\ (List.length (results_of l) <= List.length attempts)%nat
    /\ retried_only_on_captcha l
    /\ (forall l0 r, l = l0 ++ [Parsed r] -> o = Ret r)
    /\ (l = [] -> o = return_result res)
    /\ (List.length (results_of l) = List.length attempts ->
        Forall captcha_failure (results_of l) ->
        o = return_result (final_result res (results_of l))).
Proof.
  induction attempts as [|attempt rest IH]; intros res st o st' H.
  - exists []. rewrite app_nil_r.
    assert (E : o = return_result res /\ st' = st).
    { simpl in H. destruct res; unfold ret, raise in H;
        injection H as <- <-; auto. }
    destruct E as [-> ->]. repeat split; auto.
    intros l0 r E. destruct l0; discriminate.
  - simpl in H.
    apply bind_inv in H as [(e & H1 & ->)|(f & st1 & H1 & H)];
      apply attempt_body_spec in H1
        as (la & Ta & Fa & [[Ra [e' E]]|(pre & r & -> & Rpre & E)]);
      try discriminate.
    + (* the pass raised *)
      exists la. split; [exact Ta|]. rewrite Fa, Ra. simpl.
      repeat split; try lia.
      * now apply no_results_retried.
      * intros l0 r ->. rewrite results_of_app in Ra.
        destruct (results_of l0); discriminate.
      * intros ->. discriminate.
    + destruct E as [E|[E _]]; discriminate.
    + destruct E as [E|[E Hc]]; injection E as ->.
      * (* return *)
        apply ret_spec in H as [-> ->].
        exists (pre ++ [Parsed r]). split; [exact Ta|].
        rewrite Fa, results_of_app, Rpre. simpl.
        repeat split; try lia.
        -- apply no_results_no_retry; auto. simpl. split; auto. congruence.
        -- intros l0 r0 E. apply app_inj_tail in E as [_ [= ->]]. reflexivity.
        -- intros E. destruct pre; discriminate.
      * (* continue *)
        apply IH in H as (lr & Tr & Fr & Lr & Ir & Er & Nr & Cr).
        exists ((pre ++ [Parsed r]) ++ lr).
        split; [rewrite Tr, Ta, <- !app_assoc; reflexivity|].
        rewrite form_fetches_app, Fa, !results_of_app, Rpre. simpl.
        repeat split; try lia.
        -- rewrite <- app_assoc. apply no_results_no_retry; auto.
           simpl. split; auto.
        -- intros l0 r0 E.
           destruct lr as [|y lr'].
           ++ rewrite app_nil_r in E.
              apply app_inj_tail in E as [_ [= ->]]. now rewrite Nr.
           ++ destruct (@exists_last _ (y :: lr') ltac:(discriminate))
                as (lr0 & x & Ex).
              rewrite Ex in E. rewrite app_assoc in E.
              apply app_inj_tail in E as [_ ->].
              now apply (Er lr0).
        -- intros E. destruct pre; discriminate.
        -- intros Hlen Hall. inversion Hall as [|? ? _ Hall']; subst.
           apply Cr; auto.
Qed.
End LoopFacts.

Section OrchestratorFacts.
Context {U : Unicode} {P : Platform}.
Variables (self : MVRClient) (id_number surname : str).

Lemma run_query_eq captcha w o st' :
  query_documents self id_number surname captcha (start w) = (o, st') ->
  run_query self id_number surname captcha w = (o, trace st').
Proof. unfold run_query. now intros ->. Qed.

(** With no usable pre-solved CAPTCHA the call is the loop. *)
Lemma run_query_loop captcha w :
  captcha = None \/ captcha = Some [] ->
  exists l o,
    run_query self id_number surname captcha w = (o, l)
    /\ (form_fetches l <= Z.to_nat (max_retries self))%nat
    /\ retried_only_on_captcha l
    /\ (forall l0 r, l = l0 ++ [Parsed r] -> o = Ret r)
    /\ (List.length (results_of l) = Z.to_nat (max_retries self) ->
        Forall captcha_failure (results_of l) ->
        o = return_result (final_result None (results_of l))).
Proof.
  intros Hc.
  destruct (query_documents self id_number surname captcha (start w))
    as [o st'] eqn:E.
  exists (trace st'), o. split; [now apply run_query_eq|].
  assert (E' : for_attempts self id_number surname
                 (range 1 (max_retries self + 1)) None (start w) = (o, st'))
    by (destruct Hc as [-> | ->]; exact E).
  apply for_attempts_spec in E' as (l & T & F & _ & I & L & _ & C).
  simpl in T. subst l. rewrite length_range_from_1 in *. auto.
Qed.

(** Whatever the arguments, a result is followed by another event only if
    it was a CAPTCHA failure, and a result recorded last is returned. *)
Lemma run_query_discipline captcha w :
  exists l o,
    run_query self id_number surname captcha w = (o, l)
    /\ retried_only_on_captcha l
    /\ (forall l0 r, l = l0 ++ [Parsed r] -> o = Ret r).
Proof.
  assert (loop : captcha = None \/ captcha = Some [] ->
                 exists l o,
                   run_query self id_number surname captcha w = (o, l)
                   /\ retried_only_on_captcha l
                   /\ (forall l0 r, l = l0 ++ [Parsed r] -> o = Ret r)).
  { intros Hc. destruct (run_query_loop captcha w Hc) as (l & o & E & _ & I & L & _).
    exists l, o. auto. }
  destruct captcha as [[|c cs]|]; auto.
  destruct (query_documents self id_number surname (Some (c :: cs)) (start w))
    as [o st'] eqn:E.
  exists (trace st'), o. split; [now apply run_query_eq|].
  simpl in E.
  apply do_query_spec in E as [url [[T [e ->]]|[r [T ->]]]]; simpl in T; rewrite T.
  - split; [simpl; auto|]. intros [|x [|y l0]] r0 E; discriminate.
  - split; [simpl; split; auto; congruence|].
    intros [|x [|y l0]] r0 E; try discriminate.
    + simpl in E. congruence.
    + destruct l0; discriminate.
Qed.

Lemma permanent_failure_ends_run captcha w l1 r l2 :
  snd (run_query self id_number surname captcha w) = l1 ++ Parsed r :: l2 ->
  permanent_failure r ->
  l2 = [] /\ fst (run_query self id_number surname captcha w) = Ret r.
Proof.
  destruct (run_query_discipline captcha w) as (l & o & -> & I & L). simpl.
  intros -> [_ Hp].
  destruct l2 as [|x l2].
  - split; [reflexivity|]. now apply (L l1).
  - exfalso.
    destruct (followed_result_was_captcha_failure _ _ _ I ltac:(discriminate))
      as [_ Hc].
    congruence.
Qed.
End OrchestratorFacts.

(** C6: in a run of the retry loop with budget n >= 1, at most n form pages
    are fetched; a permanent (non-CAPTCHA) error result is the last event of
    the run and is what the call returns; and when n results were computed,
    all of them CAPTCHA failures, the call returns the n-th of them. *)
Theorem retry_loop_bounded
    (U : Unicode) (P : Platform) (self : MVRClient) (id_number surname : str)
    (captcha : option str) (w : World) :
  captcha = None \/ captcha = Some [] ->
  (1 <= max_retries self)%Z ->
  (form_fetches (snd (run_query self id_number surname captcha w))
   <= Z.to_nat (max_retries self))%nat
  /\ (forall l1 r l2,
        snd (run_query self id_number surname captcha w) = l1 ++ Parsed r :: l2 ->
        permanent_failure r ->
        l2 = [] /\ fst (run_query self id_number surname captcha w) = Ret r)
  /\ (List.length (results_of (snd (run_query self id_number surname captcha w)))
      = Z.to_nat (max_retries self) ->
      Forall captcha_failure
        (results_of (snd (run_query self id_number surname captcha w))) ->
      exists r,
        nth_error (results_of (snd (run_query self id_number surname captcha w)))
          (Z.to_nat (max_retries self) - 1) = Some r
        /\ fst (run_query self id_number surname captcha w) = Ret r).
Proof.
  intros Hc Hn. split; [|split].
  - destruct (run_query_loop self id_number surname captcha w Hc)
      as (l & o & -> & F & _). exact F.
  - intros l1 r l2. apply permanent_failure_ends_run.
  - destruct (run_query_loop self id_number surname captcha w Hc)
      as (l & o & -> & _ & _ & _ & C). simpl.
    intros Hlen Hall. rewrite (C Hlen Hall).
    assert (Hne : results_of l <> []).
    { intros E. rewrite E in Hlen. simpl in Hlen. lia. }
    rewrite (final_result_last _ None Hne), Hlen.
    destruct (nth_error (results_of l) (Z.to_nat (max_retries self) - 1))
      as [r|] eqn:En.
    + exists r. auto.
    + apply nth_error_None in En. lia.
Qed.

Lemma retry_loop_bounded_witness :
  (form_fetches
     (snd (@run_query Scripted.unicode (Scripted.platform true false)
             (@__init__ (Scripted.platform true false) true 3)
             Scripted.egn0 Scripted.name0 None Scripted.captcha_always_wrong))
   <= 3)%nat
  /\ exists r,
       nth_error
         (results_of
            (snd (@run_query Scripted.unicode (Scripted.platform true false)
                    (@__init__ (Scripted.platform true false) true 3)
                    Scripted.egn0 Scripted.name0 None
                    Scripted.captcha_always_wrong))) 2 = Some r
       /\ fst (@run_query Scripted.unicode (Scripted.platform true false)
                 (@__init__ (Scripted.platform true false) true 3)
                 Scripted.egn0 Scripted.name0 None Scripted.captcha_always_wrong)
          = Ret r.
Proof.
  destruct (retry_loop_bounded Scripted.unicode (Scripted.platform true false)
              (@__init__ (Scripted.platform true false) true 3)
              Scripted.egn0 Scripted.name0 None Scripted.captcha_always_wrong
              (or_introl eq_refl) ltac:(simpl; lia)) as (A & _ & C).
  split; [exact A|]. apply C.
  - vm_compute. reflexivity.
  - vm_compute. repeat constructor.
Defined.

(** C7: with a pre-solved CAPTCHA (a non-empty text) the call submits exactly
    one query and fetches no form page, whatever the submission gives. *)
Theorem presolved_captcha_single_submission
    (U : Unicode) (P : Platform) (self : MVRClient) (id_number surname : str)
    (captcha : str) (w : World) :
  captcha <> [] ->
  submissions (snd (run_query self id_number surname (Some captcha) w)) = 1%nat
  /\ form_fetches (snd (run_query self id_number surname (Some captcha) w)) = 0%nat.
Proof.
  intros Hc. destruct captcha as [|c cs]; [contradiction|].
  unfold run_query. simpl.
  destruct (_do_query id_number surname (c :: cs) (start w)) as [o st'] eqn:E.
  apply do_query_spec in E as [url [[T _]|[r [T _]]]];
    simpl in T; simpl; rewrite T; split; reflexivity.
Qed.

Lemma presolved_captcha_single_submission_witness :
  submissions
    (snd (@run_query Scripted.unicode (Scripted.platform true false)
            (@__init__ (Scripted.platform true false) true 5)
            Scripted.egn0 Scripted.name0 (Some (u "x7K2"))
            [Scripted.ok Scripted.captcha_error_text;
             Scripted.ok Scripted.form_text])) = 1%nat
  /\ form_fetches
       (snd (@run_query Scripted.unicode (Scripted.platform true false)
               (@__init__ (Scripted.platform true false) true 5)
               Scripted.egn0 Scripted.name0 (Some (u "x7K2"))
               [Scripted.ok Scripted.captcha_error_text;
                Scripted.ok Scripted.form_text])) = 0%nat.
Proof.
  apply (presolved_captcha_single_submission Scripted.unicode
           (Scripted.platform true false)
           (@__init__ (Scripted.platform true false) true 5)
           Scripted.egn0 Scripted.name0 (u "x7K2")).
  vm_compute. discriminate.
Defined.

(** C10: with no pre-solved CAPTCHA (none, or an empty text) and a budget
    below 1, the loop body is never run: nothing is fetched or changed, and
    the call ends with the unbound-variable error on [result]. *)
Theorem empty_budget_unbound_result
    (U : Unicode) (P : Platform) (self : MVRClient) (id_number surname : str)
    (captcha : option str) (st : state) :
  captcha = None \/ captcha = Some [] ->
  (max_retries self < 1)%Z ->
  range 1 (max_retries self + 1) = []
  /\ query_documents self id_number surname captcha st
     = (Raise (UnboundLocalError (u "result")), st).
Proof.
  intros Hc Hn.
  assert (E : range 1 (max_retries self + 1) = []).
  { unfold range. replace (Z.to_nat (max_retries self + 1 - 1)) with 0%nat by lia.
    reflexivity. }
  split; [exact E|].
  destruct Hc as [-> | ->]; simpl; rewrite E; reflexivity.
Qed.

Lemma empty_budget_unbound_result_witness :
  @query_documents Scripted.unicode (Scripted.platform true false)
    (@__init__ (Scripted.platform true false) true 0)
    Scripted.egn0 Scripted.name0 None
    (@start (Scripted.platform true false) Scripted.document_received)
  = (Raise (UnboundLocalError (u "result")),
     @start (Scripted.platform true false) Scripted.document_received).
Proof.
  refine (proj2 (empty_budget_unbound_result Scripted.unicode
                   (Scripted.platform true false)
                   (@__init__ (Scripted.platform true false) true 0)
                   Scripted.egn0 Scripted.name0 None
                   (@start (Scripted.platform true false)
                      Scripted.document_received) _ _)).
  - left. reflexivity.
  - simpl. lia.
Defined.

(** C4 (as stated, refuted): a result text taken from a success-pattern match
    may hold an error token and no captcha token; the result is a success. *)
Lemma error_token_inside_success_phrase_is_success :
  has_error_token
    (result (@parse_response Scripted.unicode Scripted.egn0 Scripted.name0 []
               (Scripted.plain (u "След 01.01.2024 Грешка получен.")))) = true
  /\ contains tok_kapcha
       (lower (Unicode := Scripted.unicode)
          (result (@parse_response Scripted.unicode Scripted.egn0 Scripted.name0 []
                     (Scripted.plain (u "След 01.01.2024 Грешка получен.")))))
     = false
  /\ success (@parse_response Scripted.unicode Scripted.egn0 Scripted.name0 []
                (Scripted.plain (u "След 01.01.2024 Грешка получен."))) = true.
Proof. vm_compute. repeat split. Qed.

(** C4 (amended): when the result text does not come from a success-pattern
    match and it holds an error token but no captcha token, the parser
    returns is-captcha-error=false and success=false; and in every call of
    [query_documents] such a result is the last event of the run and is what
    the call returns (no further attempt).  The interpreter's lower-casing is
    assumed to keep the captcha token that case-insensitive matching found. *)
Theorem permanent_error_not_retried (U : Unicode) (P : Platform) :
  lower_keeps_captcha_token U ->
  (forall (id_number surname body : str) (soup : node),
      (find_result_div soup = None ->
       re_search re_DOTALL success_pattern (get_text [] false soup) = None) ->
      has_error_token (result (parse_response id_number surname body soup)) = true ->
      contains tok_kapcha
        (lower (result (parse_response id_number surname body soup))) = false ->
      is_captcha_error (parse_response id_number surname body soup) = false
      /\ success (parse_response id_number surname body soup) = false)
  /\ (forall (self : MVRClient) (id_number surname : str) (captcha : option str)
             (w : World) (l1 : list event) (r : QueryResult) (l2 : list event),
        snd (run_query self id_number surname captcha w) = l1 ++ Parsed r :: l2 ->
        permanent_failure r ->
        l2 = [] /\ fst (run_query self id_number surname captcha w) = Ret r).
Proof.
  intros law. split.
  - intros id_number surname body soup Hns.
    destruct (find_result_div soup) as [d|] eqn:Hdiv.
    + rewrite (parse_container _ _ _ _ _ Hdiv). simpl.
      intros -> ->. auto.
    + specialize (Hns eq_refl).
      destruct (re_search re_DOTALL_I error_pattern (get_text [] false soup))
        as [m|] eqn:He.
      * rewrite (parse_error_match _ _ _ _ _ Hdiv Hns He). simpl.
        intros _ Hk. exfalso.
        destruct (re_search_sound _ _ _ _ He) as (_ & _ & _ & HM).
        destruct (error_match_ends_with_token _ HM) as (pre & w & -> & Hw).
        pose proof (law pre w [] Hw) as Hl. rewrite app_nil_r in Hl.
        congruence.
      * rewrite (parse_unparseable _ _ _ _ Hdiv Hns He). simpl.
        intros H. vm_compute in H. discriminate.
  - intros self id_number surname captcha w l1 r l2.
    apply permanent_failure_ends_run.
Qed.

Lemma scripted_lower_keeps_captcha_token :
  lower_keeps_captcha_token Scripted.unicode.
Proof.
  intros pre w post H.
  change (lower (pre ++ w ++ post))
    with (map Scripted.lower_char (pre ++ w ++ post)).
  rewrite !map_app.
  assert (E : map Scripted.lower_char w = tok_kapcha).
  { unfold tok_kapcha in *.
    repeat match goal with
           | H : Forall2 _ (_ :: _) _ |- _ => inversion H; subst; clear H
           | H : Forall2 _ [] _ |- _ => inversion H; subst; clear H
           end.
    simpl.
    repeat match goal with
           | H : re_ieq ?c ?x = true |- _ =>
               change ((Scripted.lower_char c =? Scripted.lower_char x) = true) in H;
               apply N.eqb_eq in H; rewrite <- H; clear H
           end.
    reflexivity. }
  rewrite E. apply contains_app.
Qed.

Lemma permanent_error_not_retried_witness :
  (is_captcha_error
     (@parse_response Scripted.unicode Scripted.egn0 Scripted.name0
        Scripted.denied_text (Scripted.parse Scripted.denied_text)) = false
   /\ success
        (@parse_response Scripted.unicode Scripted.egn0 Scripted.name0
           Scripted.denied_text (Scripted.parse Scripted.denied_text)) = false)
  /\ fst (@run_query Scripted.unicode (Scripted.platform true false)
            (@__init__ (Scripted.platform true false) true 3)
            Scripted.egn0 Scripted.name0 None Scripted.id_number_denied)
     = Ret (@parse_response Scripted.unicode Scripted.egn0 Scripted.name0
              Scripted.denied_text (Scripted.parse Scripted.denied_text)).
Proof.
  destruct (permanent_error_not_retried Scripted.unicode
              (Scripted.platform true false)
              scripted_lower_keeps_captcha_token) as [A B].
  split.
  - apply A.
    + intros H. vm_compute in H. discriminate.
    + vm_compute. reflexivity.
    + vm_compute. reflexivity.
  - refine (proj2 (B (@__init__ (Scripted.platform true false) true 3)
                     Scripted.egn0 Scripted.name0 None Scripted.id_number_denied
                     (firstn 3
                        (snd (@run_query Scripted.unicode
                                (Scripted.platform true false)
                                (@__init__ (Scripted.platform true false) true 3)
                                Scripted.egn0 Scripted.name0 None
                                Scripted.id_number_denied)))
                     (@parse_response Scripted.unicode Scripted.egn0
                        Scripted.name0 Scripted.denied_text
                        (Scripted.parse Scripted.denied_text))
                     [] _ _)).
    + vm_compute. reflexivity.
    + vm_compute. split; reflexivity.
Defined.

(** C8 (as stated, refuted): automatic solving is requested and no OCR
    library is available; the client is built all the same, the operator is
    asked for the CAPTCHA, and the query is submitted and answered. *)
Lemma missing_engines_do_not_stop_the_client :
  use_ocr (@__init__ (Scripted.platform false false) true 5) = false
  /\ exists r,
       fst (@run_query Scripted.unicode (Scripted.platform false false)
              (@__init__ (Scripted.platform false false) true 5)
              Scripted.egn0 Scripted.name0 None Scripted.document_received)
       = Ret r
       /\ success r = true
       /\ submissions
            (snd (@run_query Scripted.unicode (Scripted.platform false false)
                    (@__init__ (Scripted.platform false false) true 5)
                    Scripted.egn0 Scripted.name0 None
                    Scripted.document_received)) = 1%nat
       /\ In OperatorPrompt
            (snd (@run_query Scripted.unicode (Scripted.platform false false)
                    (@__init__ (Scripted.platform false false) true 5)
                    Scripted.egn0 Scripted.name0 None
                    Scripted.document_received)).
Proof.
  split; [reflexivity|]. eexists. vm_compute.
  split; [reflexivity|]. split; [reflexivity|]. split; [reflexivity|].
  do 2 right. left. reflexivity.
Qed.

(** C8 (amended): when automatic solving is requested and neither OCR
    library is available, building the client does not fail: the client
    holds no engine and is switched to manual solving; the "No OCR library
    available" error is what [solve_captcha_ocr] raises when it is called on
    a client that holds no engine. *)
Theorem no_engine_switches_to_manual
    (U : Unicode) (P : Platform) (max_retries : Z) :
  DDDDOCR_AVAILABLE = false ->
  EASYOCR_AVAILABLE = false ->
  use_ocr (__init__ true max_retries) = false
  /\ ocr (__init__ true max_retries) = None
  /\ easyocr_reader (__init__ true max_retries) = None
  /\ (forall self image,
        ocr self = None -> easyocr_reader self = None ->
        solve_captcha_ocr self image = Raise (RuntimeError no_ocr_message)).
Proof.
  intros Hd He. unfold __init__. rewrite Hd, He. simpl.
  repeat split.
  intros self image Ho Hr. unfold solve_captcha_ocr. now rewrite Ho, Hr.
Qed.

Lemma no_engine_switches_to_manual_witness :
  use_ocr (@__init__ (Scripted.platform false false) true 5) = false
  /\ ocr (@__init__ (Scripted.platform false false) true 5) = None
  /\ easyocr_reader (@__init__ (Scripted.platform false false) true 5) = None
  /\ (forall self image,
        ocr self = None -> easyocr_reader self = None ->
        @solve_captcha_ocr Scripted.unicode (Scripted.platform false false)
          self image = Raise (RuntimeError no_ocr_message)).
Proof.
  apply (no_engine_switches_to_manual Scripted.unicode
           (Scripted.platform false false) 5); reflexivity.
Defined.

(* ================================================================== *)
(** * Further properties of the client *)

(** ** What one pass of the loop adds to the trace *)

Section AttemptFacts.
Context {U : Unicode} {P : Platform}.

Lemma parse_response_fields id_number surname body soup :
  egn (parse_response id_number surname body soup) = id_number
  /\ last_name (parse_response id_number surname body soup) = surname
  /\ raw_html (parse_response id_number surname body soup) = body.
Proof.
  unfold parse_response.
  destruct (find_result_div soup).
  - destruct (contains tok_Greshka _ || contains tok_Nevalidna _); auto.
  - destruct (re_search re_DOTALL success_pattern _); auto.
    destruct (re_search re_DOTALL_I error_pattern _); auto.
Qed.

Lemma parsed_is_built_from_its_body id_number surname body :
  built_from_its_body id_number surname
    (parse_response id_number surname body (BeautifulSoup body)).
Proof.
  unfold built_from_its_body.
  destruct (parse_response_fields id_number surname body (BeautifulSoup body))
    as (_ & _ & ->). reflexivity.
Qed.

(** A query: its request, then (unless the request failed) its result. *)
Lemma do_query_trace id_number surname captcha st o st' :
  _do_query id_number surname captcha st = (o, st') ->
  (trace st' = trace st ++ [HttpGet Query (query_url id_number surname captcha)]
   /\ exists e, o = Raise e)
  \/ (exists r,
        trace st'
        = trace st ++ [HttpGet Query (query_url id_number surname captcha); Parsed r]
        /\ o = Ret r /\ built_from_its_body id_number surname r).
Proof.
  unfold _do_query. fold (query_url id_number surname captcha). intros H.
  apply bind_inv in H as [(e & H1 & ->)|(response & st1 & H1 & H)].
  - left. split; [exact (http_get_spec _ _ _ _ _ H1)|eauto].
  - pose proof (http_get_spec _ _ _ _ _ H1) as T1.
    apply bind_inv in H as [(e & H2 & ->)|([] & st2 & H2 & H)].
    + apply raise_for_status_spec in H2 as ->. left. eauto.
    + apply raise_for_status_spec in H2 as ->.
      unfold bind, emit, ret in H. injection H as <- <-.
      right. eexists. split; [|split; [reflexivity|]].
      * simpl. rewrite T1, <- app_assoc. reflexivity.
      * apply parsed_is_built_from_its_body.
Qed.

Lemma image_url_absolute src : startswith (u "http") (image_url src) = true.
Proof.
  unfold image_url.
  destruct (startswith (u "/") src);
    [apply (startswith_longer (u "http") BASE_URL); reflexivity|].
  destruct (startswith (u "http") src) eqn:E; [exact E|].
  apply (startswith_longer (u "http") BASE_URL). reflexivity.
Qed.

(** Extracting the image: no request, or one request for the image. *)
Lemma extract_captcha_image_trace soup st o st' :
  extract_captcha_image soup st = (o, st') ->
  st' = st
  \/ exists src, trace st' = trace st ++ [HttpGet CaptchaImage (image_url src)].
Proof.
  unfold extract_captcha_image. intros H.
  destruct (find_captcha_img soup) as [img|];
    [|apply ret_spec in H as [_ ->]; auto].
  destruct (truthy_src img) as [src|];
    [|apply ret_spec in H as [_ ->]; auto].
  destruct (startswith (u "data:image") src).
  - left.
    apply bind_inv in H as [(e & H1 & ->)|(data & st1 & H1 & H)].
    + now apply lift_spec in H1 as [_ ->].
    + apply lift_spec in H1 as [_ ->].
      apply bind_inv in H as [(e & H1 & ->)|(image & st2 & H1 & H)].
      * now apply lift_spec in H1 as [_ ->].
      * apply lift_spec in H1 as [_ ->]. now apply ret_spec in H as [_ ->].
  - right. exists src. fold (image_url src) in H.
    apply bind_inv in H as [(e & H1 & ->)|(response & st1 & H1 & H)].
    + exact (http_get_spec _ _ _ _ _ H1).
    + pose proof (http_get_spec _ _ _ _ _ H1) as T1.
      assert (E : st' = st1).
      { apply bind_inv in H as [(e & H2 & ->)|([] & st2 & H2 & H)].
        - now apply raise_for_status_spec in H2.
        - apply raise_for_status_spec in H2 as ->.
          apply bind_inv in H as [(e & H2 & ->)|(image & st3 & H2 & H)].
          + now apply lift_spec in H2 as [_ ->].
          + apply lift_spec in H2 as [_ ->]. now apply ret_spec in H as [_ ->]. }
      now subst st'.
Qed.

Lemma get_form_page_trace st o st' :
  get_form_page st = (o, st') ->
  trace st' = trace st ++ [HttpGet FormPage (BASE_URL ++ SERVICE_PATH)].
Proof.
  unfold get_form_page. intros H.
  apply bind_inv in H as [(e & H1 & ->)|(response & st1 & H1 & H)].
  - exact (http_get_spec _ _ _ _ _ H1).
  - pose proof (http_get_spec _ _ _ _ _ H1) as T1.
    apply bind_inv in H as [(e & H2 & ->)|([] & st2 & H2 & H)].
    + now apply raise_for_status_spec in H2 as ->.
    + apply raise_for_status_spec in H2 as ->.
      now apply ret_spec in H as [_ ->].
Qed.

Lemma solve_captcha_ocr_alnum self image captcha :
  solve_captcha_ocr self image = Ret captcha ->
  forallb ascii_alnum captcha = true.
Proof.
  unfold solve_captcha_ocr, strip_non_alnum.
  destruct (ocr self) as [engine|].
  - intros [= <-]. apply forallb_forall. intros c Hc.
    now apply filter_In in Hc.
  - destruct (easyocr_reader self) as [reader|]; [|discriminate].
    destruct (nonempty (reader image)); [|discriminate].
    intros [= <-]. apply forallb_forall. intros c Hc.
    now apply filter_In in Hc.
Qed.

Lemma submit_and_evaluate_trace id_number surname captcha st o st' :
  submit_and_evaluate id_number surname captcha st = (o, st') ->
  forallb ascii_alnum captcha = true ->
  exists tail,
    trace st' = trace st ++ tail /\ automatic_tail id_number surname tail o.
Proof.
  unfold submit_and_evaluate. intros H Hc.
  apply bind_inv in H as [(e & H1 & ->)|(r & st1 & H1 & H)];
    apply do_query_trace in H1 as [[T [e' E]]|[r' [T [E B]]]]; try discriminate.
  - eexists. split; [exact T|]. exists captcha. split; [exact Hc|]. left. eauto.
  - injection E as ->.
    assert (E : st' = st1
                /\ ((may_retry true r' = false /\ o = Ret (Return r'))
                    \/ (may_retry true r' = true /\ o = Ret (Continue r')))).
    { unfold may_retry.
      destruct (success r'); simpl.
      - apply ret_spec in H as [-> ->]. auto.
      - destruct (is_captcha_error r'); apply ret_spec in H as [-> ->]; auto. }
    destruct E as [-> E].
    eexists. split; [exact T|]. exists captcha. split; [exact Hc|]. right. eauto.
Qed.

Lemma attempt_body_trace self id_number surname attempt st o st' :
  attempt_body self id_number surname attempt st = (o, st') ->
  exists img tail,
    trace st'
    = trace st
      ++ [CookiesCleared; HttpGet FormPage (BASE_URL ++ SERVICE_PATH)]
      ++ img ++ tail
    /\ (img = [] \/ exists src, img = [HttpGet CaptchaImage (image_url src)])
    /\ ((tail = [] /\ exists e, o = Raise e)
        \/ automatic_tail id_number surname tail o
        \/ (use_ocr self = false /\ manual_tail id_number surname tail o)).
Proof.
  unfold attempt_body. intros H.
  apply bind_inv in H as [(e & H1 & ->)|([] & st1 & H1 & H)];
    [discriminate H1|].
  assert (T1 : trace st1 = trace st ++ [CookiesCleared])
    by (unfold clear_cookies in H1; now injection H1 as <-).
  clear H1.
  apply bind_inv in H as [(e & H2 & ->)|(soup & st2 & H2 & H)].
  { apply get_form_page_trace in H2 as T2.
    exists [], []. rewrite T2, T1, <- !app_assoc. simpl.
    repeat split; auto. left. eauto. }
  apply get_form_page_trace in H2 as T2.
  assert (T : trace st2
              = trace st
                ++ [CookiesCleared; HttpGet FormPage (BASE_URL ++ SERVICE_PATH)])
    by (rewrite T2, T1, <- app_assoc; reflexivity).
  clear T1 T2 H2.
  apply bind_inv in H as [(e & H3 & ->)|(image & st3 & H3 & H)].
  { apply extract_captcha_image_trace in H3 as [-> | [src T3]].
    - exists [], []. rewrite T. repeat split; auto. left. eauto.
    - exists [HttpGet CaptchaImage (image_url src)], [].
      rewrite T3, T, <- !app_assoc. simpl.
      split; [reflexivity|]. split; [right; eauto|]. left. eauto. }
  assert (I : exists img,
             trace st3
             = trace st
               ++ [CookiesCleared; HttpGet FormPage (BASE_URL ++ SERVICE_PATH)]
               ++ img
             /\ (img = [] \/ exists src, img = [HttpGet CaptchaImage (image_url src)])).
  { apply extract_captcha_image_trace in H3 as [-> | [src T3]].
    - exists []. rewrite app_nil_r. auto.
    - exists [HttpGet CaptchaImage (image_url src)].
      rewrite T3, T, <- !app_assoc. eauto. }
  destruct I as (img & T3 & Himg). clear T H3.
  assert (automatic : forall captcha,
             forallb ascii_alnum captcha = true ->
             submit_and_evaluate id_number surname captcha st3 = (o, st') ->
             exists img tail,
               trace st'
               = trace st
                 ++ [CookiesCleared; HttpGet FormPage (BASE_URL ++ SERVICE_PATH)]
                 ++ img ++ tail
               /\ (img = []
                   \/ exists src, img = [HttpGet CaptchaImage (image_url src)])
               /\ ((tail = [] /\ exists e, o = Raise e)
                   \/ automatic_tail id_number surname tail o
                   \/ (use_ocr self = false
                       /\ manual_tail id_number surname tail o))).
  { intros captcha Hc Hq.
    apply submit_and_evaluate_trace in Hq as (tail & Tq & A); [|exact Hc].
    exists img, tail. rewrite Tq, T3, <- !app_assoc. auto. }
  destruct image as [image|]; [|exact (automatic [] eq_refl H)].
  destruct (use_ocr self) eqn:Huse.
  - apply bind_inv in H as [(e & H4 & ->)|(captcha & st4 & H4 & H)].
    + apply lift_spec in H4 as [_ ->].
      exists img, []. rewrite app_nil_r. repeat split; auto. left. eauto.
    + apply lift_spec in H4 as [E4 ->].
      exact (automatic captcha (solve_captcha_ocr_alnum _ _ _ (eq_sym E4)) H).
  - apply bind_inv in H as [(e & H4 & ->)|(captcha & st4 & H4 & H)];
      [unfold solve_captcha_manual in H4;
       destruct (operator image (world st3)); discriminate|].
    apply solve_captcha_manual_spec in H4 as T4.
    apply bind_inv in H as [(e & H5 & ->)|(r & st5 & H5 & H)];
      apply do_query_trace in H5 as [[T5 [e' E]]|[r' [T5 [E B]]]];
      try discriminate.
    + eexists img, _. split; [|split; [exact Himg|]].
      * rewrite T5, T4, T3, <- !app_assoc. simpl. reflexivity.
      * right. right. split; [reflexivity|]. exists captcha. left. eauto.
    + injection E as ->. apply ret_spec in H as [-> ->].
      eexists img, _. split; [|split; [exact Himg|]].
      * rewrite T5, T4, T3, <- !app_assoc. simpl. reflexivity.
      * right. right. split; [reflexivity|]. exists captcha. right. eauto.
Qed.
End AttemptFacts.

(** ** What a whole call adds to the trace *)

Section CallFacts.
Context {U : Unicode} {P : Platform}.
Variables (self : MVRClient) (id_number surname : str).

Lemma follow_app manual l1 : forall p l2,
  follow manual p (l1 ++ l2)
  = match follow manual p l1 with
    | Some q => follow manual q l2
    | None => None
    end.
Proof.
  induction l1 as [|e l1 IH]; intros p l2; simpl; auto.
  destruct (step manual p e); auto.
Qed.

Lemma follow_split manual l1 e l2 p q :
  follow manual p (l1 ++ e :: l2) = Some q ->
  exists p1 p2,
    follow manual p l1 = Some p1 /\ step manual p1 e = Some p2
    /\ follow manual p2 l2 = Some q.
Proof.
  rewrite follow_app. destruct (follow manual p l1) as [p1|]; [|discriminate].
  simpl. destruct (step manual p1 e) as [p2|] eqn:E; [|discriminate].
  eauto.
Qed.

Lemma str_eqb_eq a : forall b, str_eqb a b = true -> a = b.
Proof.
  induction a as [|x a IH]; intros [|y b]; simpl; try discriminate; auto.
  intros H. apply andb_true_iff in H as [Hx H].
  apply N.eqb_eq in Hx. subst y. f_equal. auto.
Qed.

(** Any property of single events that every pass keeps, the loop keeps. *)
Lemma for_attempts_events (Q : event -> Prop) :
  (forall attempt st o st',
      attempt_body self id_number surname attempt st = (o, st') ->
      exists l, trace st' = trace st ++ l /\ Forall Q l) ->
  forall attempts res st o st',
    for_attempts self id_number surname attempts res st = (o, st') ->
    exists l, trace st' = trace st ++ l /\ Forall Q l.
Proof.
  intros pass. induction attempts as [|attempt rest IH]; intros res st o st' H.
  - exists []. rewrite app_nil_r. split; [|constructor].
    simpl in H. destruct res; unfold ret, raise in H; now injection H as <- <-.
  - simpl in H.
    apply bind_inv in H as [(e & H1 & ->)|(f & st1 & H1 & H)];
      apply pass in H1 as (la & Ta & Qa).
    + eauto.
    + destruct f as [r|r].
      * apply IH in H as (lr & Tr & Qr).
        exists (la ++ lr). rewrite Tr, Ta, <- app_assoc.
        split; [reflexivity|]. now apply Forall_app.
      * apply ret_spec in H as [_ ->]. eauto.
Qed.

(** The events of a pass, one by one. *)
Lemma attempt_events attempt st o st' :
  attempt_body self id_number surname attempt st = (o, st') ->
  exists l, trace st' = trace st ++ l /\ Forall (event_of_call id_number surname) l.
Proof.
  intros H. apply attempt_body_trace in H as (img & tail & T & Himg & Htail).
  eexists. split; [exact T|].
  apply Forall_app. split; [repeat constructor|].
  apply Forall_app. split.
  - destruct Himg as [-> | [src ->]]; repeat constructor. simpl. eauto.
  - destruct Htail as [[-> _]|[(c & _ & [[-> _]|(r & -> & B & _)])
                              |(_ & c & [[-> _]|(r & -> & B & _)])]];
      repeat constructor; simpl; eauto.
Qed.

Lemma attempt_submissions_clean attempt st o st' :
  use_ocr self = true ->
  attempt_body self id_number surname attempt st = (o, st') ->
  exists l, trace st' = trace st ++ l /\ Forall (clean_submission id_number surname) l.
Proof.
  intros Huse H. apply attempt_body_trace in H as (img & tail & T & Himg & Htail).
  eexists. split; [exact T|].
  apply Forall_app. split; [repeat constructor|].
  apply Forall_app. split.
  - destruct Himg as [-> | [src ->]]; repeat constructor.
  - destruct Htail as [[-> _]|[(c & Hc & [[-> _]|(r & -> & B & _)])
                              |(Hm & _)]];
      [| | |congruence]; repeat constructor; simpl; eauto.
Qed.

(** The counts of a pass: one form page, at most one submission, and a
    result only for a submission. *)
Lemma attempt_counts attempt st o st' :
  attempt_body self id_number surname attempt st = (o, st') ->
  exists l,
    trace st' = trace st ++ l
    /\ form_fetches l = 1%nat
    /\ (submissions l <= 1)%nat
    /\ (List.length (results_of l) <= submissions l)%nat.
Proof.
  intros H. apply attempt_body_trace in H as (img & tail & T & Himg & Htail).
  eexists. split; [exact T|].
  rewrite !form_fetches_app, !submissions_app, !results_of_app, !length_app.
  assert (I : form_fetches img = 0%nat /\ submissions img = 0%nat
              /\ List.length (results_of img) = 0%nat)
    by (destruct Himg as [-> | [src ->]]; auto).
  destruct I as (-> & -> & ->).
  assert (R : form_fetches tail = 0%nat /\ (submissions tail <= 1)%nat
              /\ (List.length (results_of tail) <= submissions tail)%nat).
  { destruct Htail as [[-> _]|[(c & _ & [[-> _]|(r & -> & _)])
                              |(_ & c & [[-> _]|(r & -> & _)])]];
      unfold form_fetches, submissions; simpl; lia. }
  destruct R as (-> & R1 & R2). simpl. repeat split; lia.
Qed.

Lemma for_attempts_counts : forall attempts res st o st',
  for_attempts self id_number surname attempts res st = (o, st') ->
  exists l,
    trace st' = trace st ++ l
    /\ (submissions l <= form_fetches l)%nat
    /\ (List.length (results_of l) <= submissions l)%nat.
Proof.
  induction attempts as [|attempt rest IH]; intros res st o st' H.
  - exists []. rewrite app_nil_r. split; [|split; auto].
    simpl in H. destruct res; unfold ret, raise in H; now injection H as <- <-.
  - simpl in H.
    apply bind_inv in H as [(e & H1 & ->)|(f & st1 & H1 & H)];
      apply attempt_counts in H1 as (la & Ta & Fa & Sa & Ra).
    + exists la. repeat split; auto; lia.
    + destruct f as [r|r].
      * apply IH in H as (lr & Tr & Sr & Rr).
        exists (la ++ lr). rewrite Tr, Ta, <- app_assoc.
        split; [reflexivity|].
        rewrite form_fetches_app, submissions_app, results_of_app, length_app.
        split; lia.
      * apply ret_spec in H as [_ ->]. exists la. repeat split; auto; lia.
Qed.
End CallFacts.

(** ** Every call follows the machine *)

Section MachineFacts.
Context {U : Unicode} {P : Platform}.
Variables (self : MVRClient) (id_number surname : str).

Lemma str_eqb_refl a : str_eqb a a = true.
Proof. induction a; simpl; auto. now rewrite N.eqb_refl. Qed.

Lemma pass_head manual p rest :
  step manual p CookiesCleared = Some Reset ->
  follow manual p
    ([CookiesCleared; HttpGet FormPage (BASE_URL ++ SERVICE_PATH)] ++ rest)
  = follow manual Form rest.
Proof.
  intros H. simpl app. cbn [follow]. rewrite H. cbn [step].
  now rewrite str_eqb_refl.
Qed.

Lemma pass_follows p attempt st o st' :
  step (negb (use_ocr self)) p CookiesCleared = Some Reset ->
  attempt_body self id_number surname attempt st = (o, st') ->
  exists l q,
    trace st' = trace st ++ l
    /\ follow (negb (use_ocr self)) p l = Some q
    /\ match o with
       | Raise e =>
           match q with
           | Form | ImageRequested | Submitted _ => True
           | _ => False
           end
       | Ret (Return r) => exists b, q = Evaluated b r /\ may_retry b r = false
       | Ret (Continue r) => q = Evaluated true r /\ may_retry true r = true
       end.
Proof.
  intros Hp H. apply attempt_body_trace in H as (img & tail & T & Himg & Htail).
  destruct Himg as [-> | [src ->]];
    destruct Htail as [[-> [e ->]]
                      |[(c & _ & [[-> [e ->]]|(r & -> & _ & [[M ->]|[M ->]])])
                       |(Hm & c & [[-> [e ->]]|(r & -> & _ & ->)])]];
    (eexists; eexists; split; [exact T|]);
    rewrite (pass_head _ _ _ Hp); try rewrite Hm; simpl;
    (split; [reflexivity|]); try exact I; eauto;
    try (exists true; split; [reflexivity|assumption]);
    try (exists false; split; reflexivity).
Qed.

(** The loop, from a phase that matches the local [result]. *)
Lemma for_attempts_follows : forall attempts res st o st' p,
  (p = Idle /\ res = None)
  \/ (exists r, p = Evaluated true r /\ res = Some r /\ may_retry true r = true) ->
  for_attempts self id_number surname attempts res st = (o, st') ->
  exists l q,
    trace st' = trace st ++ l
    /\ follow (negb (use_ocr self)) p l = Some q
    /\ ended q o.
Proof.
  induction attempts as [|attempt rest IH]; intros res st o st' p Hp H.
  - exists [], p. rewrite app_nil_r.
    assert (E : o = return_result res /\ st' = st).
    { simpl in H. destruct res; unfold ret, raise in H;
        injection H as <- <-; auto. }
    destruct E as [-> ->]. repeat split.
    destruct Hp as [[-> ->]|(r & -> & -> & _)]; reflexivity.
  - assert (Hstep : step (negb (use_ocr self)) p CookiesCleared = Some Reset).
    { destruct Hp as [[-> _]|(r & -> & _ & M)]; simpl; [reflexivity|].
      now rewrite M. }
    simpl in H.
    apply bind_inv in H as [(e & H1 & ->)|(f & st1 & H1 & H)];
      apply (pass_follows p) in H1 as (la & q & Ta & Fa & E); auto.
    + exists la, q. repeat split; auto.
      destruct q; try contradiction; simpl; eauto.
    + destruct f as [r|r].
      * destruct E as [-> M].
        apply (IH _ _ _ _ (Evaluated true r)) in H as (lr & q & Tr & Fr & E);
          [|right; eauto].
        exists (la ++ lr), q. rewrite Tr, Ta, <- app_assoc.
        split; [reflexivity|]. rewrite follow_app, Fa. auto.
      * destruct E as (b & -> & _). apply ret_spec in H as [-> ->].
        exists la, (Evaluated b r). repeat split; auto.
Qed.

Lemma run_query_follows captcha w :
  exists q,
    follow (negb (use_ocr self)) Idle
      (snd (run_query self id_number surname captcha w)) = Some q
    /\ ended q (fst (run_query self id_number surname captcha w)).
Proof.
  unfold run_query.
  destruct (query_documents self id_number surname captcha (start w))
    as [o st'] eqn:E. simpl.
  assert (loop : for_attempts self id_number surname
                   (range 1 (max_retries self + 1)) None (start w) = (o, st') ->
                 exists q,
                   follow (negb (use_ocr self)) Idle (trace st') = Some q
                   /\ ended q o).
  { intros H. apply (for_attempts_follows _ _ _ _ _ Idle) in H
      as (l & q & T & F & En); auto.
    simpl in T. subst l. eauto. }
  destruct captcha as [[|c cs]|]; auto.
  simpl in E. apply do_query_trace in E as [[T [e ->]]|[r [T [-> _]]]];
    simpl in T; rewrite T; simpl.
  - exists (Submitted false). split; [reflexivity|]. simpl. eauto.
  - exists (Evaluated false r). split; reflexivity.
Qed.

(** What the last step into a phase was. *)
Lemma reached_by manual l : forall p q,
  follow manual p l = Some q ->
  l = []
  \/ exists l0 e p1,
       l = l0 ++ [e] /\ follow manual p l0 = Some p1 /\ step manual p1 e = Some q.
Proof.
  intros p q H. destruct l as [|x l']; auto. right.
  destruct (@exists_last _ (x :: l') ltac:(discriminate)) as (l0 & e & E).
  rewrite E in *.
  apply follow_split in H as (p1 & p2 & F1 & S & F2).
  simpl in F2. injection F2 as <-.
  exists l0, e, p1. repeat split; assumption.
Qed.

Lemma step_into_reset manual p e :
  step manual p e = Some Reset -> e = CookiesCleared.
Proof.
  destruct p, e as [|[] url| |r0]; simpl; try discriminate; auto;
    try (destruct manual; discriminate);
    try (destruct (str_eqb _ _); discriminate).
Qed.

Lemma step_into_evaluated manual p e b r :
  step manual p e = Some (Evaluated b r) -> e = Parsed r.
Proof.
  destruct p, e as [|[] url| |r']; simpl; try discriminate;
    try (destruct manual; discriminate);
    try (destruct (str_eqb _ _); discriminate);
    try (destruct (may_retry _ _); discriminate).
  now intros [= _ ->].
Qed.

Lemma step_on_form_fetch manual p url q :
  step manual p (HttpGet FormPage url) = Some q ->
  p = Reset /\ url = BASE_URL ++ SERVICE_PATH.
Proof.
  destruct p; cbn [step]; try discriminate.
  destruct (str_eqb url (BASE_URL ++ SERVICE_PATH)) eqn:E; [|discriminate].
  intros _. split; [reflexivity|]. now apply str_eqb_eq.
Qed.

Lemma step_on_prompt manual p q :
  step manual p OperatorPrompt = Some q -> manual = true /\ q = Prompted.
Proof.
  destruct p; simpl; try discriminate; destruct manual; try discriminate;
    now intros [= <-].
Qed.

(** From the prompt on: the one submission, and its result if it came. *)
Lemma after_prompt manual l q o :
  follow manual Prompted l = Some q -> ended q o ->
  (exists url, l = [HttpGet Query url] /\ exists e, o = Raise e)
  \/ (exists url r, l = [HttpGet Query url; Parsed r] /\ o = Ret r).
Proof.
  destruct l as [|e1 l]; simpl.
  - intros [= <-]. contradiction.
  - destruct e1 as [|[] url| |r1]; try discriminate.
    destruct l as [|e2 l]; simpl.
    + intros [= <-] En. left. eauto.
    + destruct e2 as [|k u2| |r]; try discriminate.
      destruct l as [|e3 l]; simpl.
      * intros [= <-] En. right. eauto.
      * destruct e3 as [|k u3| |r3]; discriminate.
Qed.
End MachineFacts.

(** ** The orchestrator, as its caller sees it *)

(** X1: the events of every call of [query_documents] come in the order of
    the orchestrator's machine (reset, form page, image, prompt in manual
    mode only, submission, result; a new pass only after a CAPTCHA failure
    inside the loop), and the way the call ends matches the phase it stopped
    in: a result if and only if the last phase was an evaluation. *)
Theorem call_follows_the_machine
    (U : Unicode) (P : Platform) (self : MVRClient) (id_number surname : str)
    (captcha : option str) (w : World) :
  exists q,
    follow (negb (use_ocr self)) Idle
      (snd (run_query self id_number surname captcha w)) = Some q
    /\ ended q (fst (run_query self id_number surname captcha w)).
Proof. apply run_query_follows. Qed.

Lemma run_query_returns_last
    (U : Unicode) (P : Platform) (self : MVRClient) (id_number surname : str)
    (captcha : option str) (w : World) (r : QueryResult) :
  fst (run_query self id_number surname captcha w) = Ret r
  <-> exists l0, snd (run_query self id_number surname captcha w) = l0 ++ [Parsed r].
Proof.
  split.
  - destruct (run_query_follows self id_number surname captcha w) as (q & F & En).
    intros E. rewrite E in En.
    destruct q as [| | | | |b|b r0]; unfold ended in En;
      try contradiction; try discriminate En;
      try (case En; intros; discriminate).
    injection En as ->. pose proof F as F'.
    apply reached_by in F as [E0|(l0 & e & p1 & E0 & _ & S)].
    + rewrite E0 in F'. discriminate F'.
    + apply step_into_evaluated in S as ->. eauto.
  - intros [l0 E].
    destruct (run_query_discipline self id_number surname captcha w)
      as (l & o & Er & _ & L).
    rewrite Er in *. simpl in *. eauto.
Qed.

(** X2: a call returns a result exactly when the last event of its trace is
    a parsed result, and then it returns that very result. *)
Theorem returned_result_is_last_parsed
    (U : Unicode) (P : Platform) (self : MVRClient) (id_number surname : str)
    (captcha : option str) (w : World) (r : QueryResult) :
  fst (run_query self id_number surname captcha w) = Ret r
  <-> exists l0, snd (run_query self id_number surname captcha w) = l0 ++ [Parsed r].
Proof. apply run_query_returns_last. Qed.

(** X3: every form page is requested at the service URL, and the event
    just before the request is the clearing of the session's cookies. *)
Theorem cookies_cleared_before_each_form_fetch
    (U : Unicode) (P : Platform) (self : MVRClient) (id_number surname : str)
    (captcha : option str) (w : World) (l1 : list event) (url : str)
    (l2 : list event) :
  snd (run_query self id_number surname captcha w)
  = l1 ++ HttpGet FormPage url :: l2 ->
  url = BASE_URL ++ SERVICE_PATH
  /\ exists l0, l1 = l0 ++ [CookiesCleared].
Proof.
  intros E.
  destruct (run_query_follows self id_number surname captcha w) as (q & F & _).
  rewrite E in F. apply follow_split in F as (p1 & p2 & F1 & S & _).
  apply step_on_form_fetch in S as [-> ->]. split; [reflexivity|].
  pose proof F1 as F1'.
  apply reached_by in F1 as [E0|(l0 & e & p0 & E0 & F0 & S0)].
  - subst l1. discriminate F1'.
  - apply step_into_reset in S0 as ->. eauto.
Qed.

Lemma cookies_cleared_before_each_form_fetch_witness :
  BASE_URL ++ SERVICE_PATH = BASE_URL ++ SERVICE_PATH
  /\ exists l0,
       firstn 5
         (snd (@run_query Scripted.unicode (Scripted.platform true false)
                 (@__init__ (Scripted.platform true false) true 3)
                 Scripted.egn0 Scripted.name0 None
                 Scripted.captcha_always_wrong))
       = l0 ++ [CookiesCleared].
Proof.
  apply (cookies_cleared_before_each_form_fetch Scripted.unicode
           (Scripted.platform true false)
           (@__init__ (Scripted.platform true false) true 3)
           Scripted.egn0 Scripted.name0 None Scripted.captcha_always_wrong
           (firstn 5
              (snd (@run_query Scripted.unicode (Scripted.platform true false)
                      (@__init__ (Scripted.platform true false) true 3)
                      Scripted.egn0 Scripted.name0 None
                      Scripted.captcha_always_wrong)))
           (BASE_URL ++ SERVICE_PATH)
           (skipn 6
              (snd (@run_query Scripted.unicode (Scripted.platform true false)
                      (@__init__ (Scripted.platform true false) true 3)
                      Scripted.egn0 Scripted.name0 None
                      Scripted.captcha_always_wrong)))).
  vm_compute. reflexivity.
Defined.

(** X4: in a run of the retry loop, a result is parsed only for a
    submission, a query is submitted only after its own form page, and the
    form pages are at most the budget: results <= submissions <= form
    fetches <= n. *)
Theorem submissions_bounded
    (U : Unicode) (P : Platform) (self : MVRClient) (id_number surname : str)
    (captcha : option str) (w : World) :
  captcha = None \/ captcha = Some [] ->
  (List.length (results_of (snd (run_query self id_number surname captcha w)))
   <= submissions (snd (run_query self id_number surname captcha w)))%nat
  /\ (submissions (snd (run_query self id_number surname captcha w))
      <= form_fetches (snd (run_query self id_number surname captcha w)))%nat
  /\ (form_fetches (snd (run_query self id_number surname captcha w))
      <= Z.to_nat (max_retries self))%nat.
Proof.
  intros Hc.
  destruct (run_query_loop self id_number surname captcha w Hc)
    as (l & o & E & F & _).
  rewrite E. simpl. split; [|split]; [| |exact F].
  - unfold run_query in E.
    destruct (query_documents self id_number surname captcha (start w))
      as [o' st'] eqn:Eq.
    injection E as -> <-.
    assert (E' : for_attempts self id_number surname
                   (range 1 (max_retries self + 1)) None (start w) = (o, st'))
      by (destruct Hc as [-> | ->]; exact Eq).
    apply for_attempts_counts in E' as (l & T & _ & R). simpl in T. now subst l.
  - unfold run_query in E.
    destruct (query_documents self id_number surname captcha (start w))
      as [o' st'] eqn:Eq.
    injection E as -> <-.
    assert (E' : for_attempts self id_number surname
                   (range 1 (max_retries self + 1)) None (start w) = (o, st'))
      by (destruct Hc as [-> | ->]; exact Eq).
    apply for_attempts_counts in E' as (l & T & S & _). simpl in T. now subst l.
Qed.

Lemma submissions_bounded_witness :
  (List.length
     (results_of
        (snd (@run_query Scripted.unicode (Scripted.platform true false)
                (@__init__ (Scripted.platform true false) true 3)
                Scripted.egn0 Scripted.name0 None Scripted.captcha_always_wrong)))
   <= submissions
        (snd (@run_query Scripted.unicode (Scripted.platform true false)
                (@__init__ (Scripted.platform true false) true 3)
                Scripted.egn0 Scripted.name0 None Scripted.captcha_always_wrong)))%nat
  /\ (submissions
        (snd (@run_query Scripted.unicode (Scripted.platform true false)
                (@__init__ (Scripted.platform true false) true 3)
                Scripted.egn0 Scripted.name0 None Scripted.captcha_always_wrong))
      <= form_fetches
           (snd (@run_query Scripted.unicode (Scripted.platform true false)
                   (@__init__ (Scripted.platform true false) true 3)
                   Scripted.egn0 Scripted.name0 None
                   Scripted.captcha_always_wrong)))%nat
  /\ (form_fetches
        (snd (@run_query Scripted.unicode (Scripted.platform true false)
                (@__init__ (Scripted.platform true false) true 3)
                Scripted.egn0 Scripted.name0 None Scripted.captcha_always_wrong))
      <= 3)%nat.
Proof.
  apply (submissions_bounded Scripted.unicode (Scripted.platform true false)
           (@__init__ (Scripted.platform true false) true 3)
           Scripted.egn0 Scripted.name0 None Scripted.captcha_always_wrong).
  left. reflexivity.
Defined.

(** X5: the operator is asked for a CAPTCHA only by a client in manual mode
    ([use_ocr] false). *)
Theorem operator_only_in_manual_mode
    (U : Unicode) (P : Platform) (self : MVRClient) (id_number surname : str)
    (captcha : option str) (w : World) :
  In OperatorPrompt (snd (run_query self id_number surname captcha w)) ->
  use_ocr self = false.
Proof.
  intros H. apply in_split in H as (l1 & l2 & E).
  destruct (run_query_follows self id_number surname captcha w) as (q & F & _).
  rewrite E in F. apply follow_split in F as (p1 & p2 & _ & S & _).
  apply step_on_prompt in S as [S _].
  now apply negb_true_iff in S.
Qed.

Lemma operator_only_in_manual_mode_witness :
  use_ocr (@__init__ (Scripted.platform true false) false 5) = false.
Proof.
  apply (operator_only_in_manual_mode Scripted.unicode
           (Scripted.platform true false)
           (@__init__ (Scripted.platform true false) false 5)
           Scripted.egn0 Scripted.name0 None Scripted.captcha_always_wrong).
  vm_compute. do 2 right. left. reflexivity.
Defined.

(** X6: a CAPTCHA typed by the operator is submitted exactly once: after
    the prompt comes one query request and, if it is answered, its result,
    which the call returns; nothing else follows, whatever the result. *)
Theorem prompted_captcha_submitted_once
    (U : Unicode) (P : Platform) (self : MVRClient) (id_number surname : str)
    (captcha : option str) (w : World) (l1 l2 : list event) :
  snd (run_query self id_number surname captcha w) = l1 ++ OperatorPrompt :: l2 ->
  (exists url,
      l2 = [HttpGet Query url]
      /\ exists e, fst (run_query self id_number surname captcha w) = Raise e)
  \/ (exists url r,
        l2 = [HttpGet Query url; Parsed r]
        /\ fst (run_query self id_number surname captcha w) = Ret r).
Proof.
  intros E.
  destruct (run_query_follows self id_number surname captcha w) as (q & F & En).
  rewrite E in F. apply follow_split in F as (p1 & p2 & _ & S & F2).
  apply step_on_prompt in S as [_ ->].
  exact (after_prompt _ _ _ _ F2 En).
Qed.

Lemma prompted_captcha_submitted_once_witness :
  (exists url,
      skipn 3
        (snd (@run_query Scripted.unicode (Scripted.platform true false)
                (@__init__ (Scripted.platform true false) false 5)
                Scripted.egn0 Scripted.name0 None Scripted.captcha_always_wrong))
      = [HttpGet Query url]
      /\ exists e,
           fst (@run_query Scripted.unicode (Scripted.platform true false)
                  (@__init__ (Scripted.platform true false) false 5)
                  Scripted.egn0 Scripted.name0 None
                  Scripted.captcha_always_wrong) = Raise e)
  \/ (exists url r,
        skipn 3
          (snd (@run_query Scripted.unicode (Scripted.platform true false)
                  (@__init__ (Scripted.platform true false) false 5)
                  Scripted.egn0 Scripted.name0 None
                  Scripted.captcha_always_wrong))
        = [HttpGet Query url; Parsed r]
        /\ fst (@run_query Scripted.unicode (Scripted.platform true false)
                  (@__init__ (Scripted.platform true false) false 5)
                  Scripted.egn0 Scripted.name0 None
                  Scripted.captcha_always_wrong) = Ret r).
Proof.
  apply (prompted_captcha_submitted_once Scripted.unicode
           (Scripted.platform true false)
           (@__init__ (Scripted.platform true false) false 5)
           Scripted.egn0 Scripted.name0 None Scripted.captcha_always_wrong
           (firstn 2
              (snd (@run_query Scripted.unicode (Scripted.platform true false)
                      (@__init__ (Scripted.platform true false) false 5)
                      Scripted.egn0 Scripted.name0 None
                      Scripted.captcha_always_wrong)))).
  vm_compute. reflexivity.
Defined.

(** X7: a successful result ends the call at once: it is the last event of
    the trace and it is what the call returns. *)
Theorem success_ends_the_call
    (U : Unicode) (P : Platform) (self : MVRClient) (id_number surname : str)
    (captcha : option str) (w : World) (l1 : list event) (r : QueryResult)
    (l2 : list event) :
  snd (run_query self id_number surname captcha w) = l1 ++ Parsed r :: l2 ->
  success r = true ->
  l2 = [] /\ fst (run_query self id_number surname captcha w) = Ret r.
Proof.
  destruct (run_query_discipline self id_number surname captcha w)
    as (l & o & -> & I & L). simpl.
  intros -> Hs.
  destruct l2 as [|x l2].
  - split; [reflexivity|]. now apply (L l1).
  - exfalso.
    destruct (followed_result_was_captcha_failure _ _ _ I ltac:(discriminate))
      as [Hf _].
    congruence.
Qed.

Lemma success_ends_the_call_witness :
  @nil event = []
  /\ fst (@run_query Scripted.unicode (Scripted.platform true false)
            (@__init__ (Scripted.platform true false) true 3)
            Scripted.egn0 Scripted.name0 None
            (Scripted.document_received ++ Scripted.captcha_always_wrong))
     = Ret (@parse_response Scripted.unicode Scripted.egn0 Scripted.name0
              Scripted.received_text (Scripted.plain Scripted.received_text)).
Proof.
  apply (success_ends_the_call Scripted.unicode (Scripted.platform true false)
           (@__init__ (Scripted.platform true false) true 3)
           Scripted.egn0 Scripted.name0 None
           (Scripted.document_received ++ Scripted.captcha_always_wrong)
           (firstn 3
              (snd (@run_query Scripted.unicode (Scripted.platform true false)
                      (@__init__ (Scripted.platform true false) true 3)
                      Scripted.egn0 Scripted.name0 None
                      (Scripted.document_received
                       ++ Scripted.captcha_always_wrong))))).
  - vm_compute. reflexivity.
  - vm_compute. reflexivity.
Defined.

Section CallEvents.
Context {U : Unicode} {P : Platform}.
Variables (self : MVRClient) (id_number surname : str).

Lemma run_query_events captcha w :
  Forall (event_of_call id_number surname)
    (snd (run_query self id_number surname captcha w)).
Proof.
  unfold run_query.
  destruct (query_documents self id_number surname captcha (start w))
    as [o st'] eqn:E. simpl.
  assert (loop : for_attempts self id_number surname
                   (range 1 (max_retries self + 1)) None (start w) = (o, st') ->
                 Forall (event_of_call id_number surname) (trace st')).
  { intros H.
    apply (for_attempts_events self id_number surname
             (event_of_call id_number surname)) in H as (l & T & Q).
    - simpl in T. now subst l.
    - apply attempt_events. }
  destruct captcha as [[|c cs]|]; auto.
  simpl in E. apply do_query_trace in E as [[T _]|[r [T [_ B]]]];
    simpl in T; rewrite T; repeat constructor; simpl; eauto.
Qed.

Lemma built_result_fields r :
  built_from_its_body id_number surname r ->
  egn r = id_number /\ last_name r = surname
  /\ (is_captcha_error r = true -> success r = false).
Proof.
  unfold built_from_its_body. intros ->.
  destruct (parse_response_fields id_number surname (raw_html r)
              (BeautifulSoup (raw_html r))) as (E1 & E2 & _).
  split; [exact E1|]. split; [exact E2|].
  unfold parse_response.
  destruct (find_result_div _) as [d|].
  - destruct (contains tok_Greshka _ || contains tok_Nevalidna _); simpl;
      intros; congruence.
  - destruct (re_search re_DOTALL success_pattern _); simpl; [discriminate|].
    destruct (re_search re_DOTALL_I error_pattern _); simpl; intros; congruence.
Qed.
End CallEvents.

(** X8: in every call, the form page is requested at the service URL, a
    query at that URL followed by "?" and the five encoded parameters type
    (6729), egn, name, captcha and submitted (1) of this call, an image at
    the URL resolved from a [src], and every result recorded is the parse of
    the body it carries, for the id number and surname of the call. *)
Theorem events_of_a_call
    (U : Unicode) (P : Platform) (self : MVRClient) (id_number surname : str)
    (captcha : option str) (w : World) :
  Forall (event_of_call id_number surname)
    (snd (run_query self id_number surname captcha w)).
Proof. apply run_query_events. Qed.

(** X9: whatever [query_documents] returns carries the id number and the
    surname it was called with, is the parse of the very body stored in its
    raw_html (no other response went into it), and is never at once a
    CAPTCHA error and a success. *)
Theorem returned_result_belongs_to_the_call
    (U : Unicode) (P : Platform) (self : MVRClient) (id_number surname : str)
    (captcha : option str) (w : World) (r : QueryResult) :
  fst (run_query self id_number surname captcha w) = Ret r ->
  egn r = id_number
  /\ last_name r = surname
  /\ r = parse_response id_number surname (raw_html r) (BeautifulSoup (raw_html r))
  /\ (is_captcha_error r = true -> success r = false).
Proof.
  intros E. apply run_query_returns_last in E as [l0 E].
  pose proof (run_query_events self id_number surname captcha w) as Q.
  rewrite E in Q. apply Forall_app in Q as [_ Q].
  inversion Q as [|? ? B _]; subst. simpl in B.
  destruct (built_result_fields id_number surname r B) as (E1 & E2 & I).
  auto.
Qed.

Lemma returned_result_belongs_to_the_call_witness :
  egn (@parse_response Scripted.unicode Scripted.egn0 Scripted.name0
         Scripted.denied_text (Scripted.parse Scripted.denied_text))
  = Scripted.egn0.
Proof.
  refine (proj1 (returned_result_belongs_to_the_call Scripted.unicode
                   (Scripted.platform true false)
                   (@__init__ (Scripted.platform true false) true 3)
                   Scripted.egn0 Scripted.name0 None Scripted.id_number_denied
                   _ _)).
  vm_compute. reflexivity.
Defined.

(** X10: a client in automatic mode submits, in the loop, only CAPTCHA
    texts made of ASCII letters and digits (the empty text when the page
    shows no image): whatever the OCR engine read is cleaned first. *)
Theorem ocr_submissions_are_alphanumeric
    (U : Unicode) (P : Platform) (self : MVRClient) (id_number surname : str)
    (captcha : option str) (w : World) :
  use_ocr self = true ->
  captcha = None \/ captcha = Some [] ->
  Forall (clean_submission id_number surname)
    (snd (run_query self id_number surname captcha w)).
Proof.
  intros Huse Hc. unfold run_query.
  destruct (query_documents self id_number surname captcha (start w))
    as [o st'] eqn:E. simpl.
  assert (E' : for_attempts self id_number surname
                 (range 1 (max_retries self + 1)) None (start w) = (o, st'))
    by (destruct Hc as [-> | ->]; exact E).
  apply (for_attempts_events self id_number surname
           (clean_submission id_number surname)) in E' as (l & T & Q).
  - simpl in T. now subst l.
  - intros attempt st o0 st0. now apply attempt_submissions_clean.
Qed.

Lemma ocr_submissions_are_alphanumeric_witness :
  Forall (@clean_submission (Scripted.platform true false)
            Scripted.egn0 Scripted.name0)
    (snd (@run_query Scripted.unicode (Scripted.platform true false)
            (@__init__ (Scripted.platform true false) true 3)
            Scripted.egn0 Scripted.name0 None Scripted.captcha_always_wrong)).
Proof.
  apply (ocr_submissions_are_alphanumeric Scripted.unicode
           (Scripted.platform true false)
           (@__init__ (Scripted.platform true false) true 3)
           Scripted.egn0 Scripted.name0 None Scripted.captcha_always_wrong).
  - reflexivity.
  - left. reflexivity.
Defined.

(** X11: a failure of the first form-page request is not retried, whatever
    the budget: when the request itself fails, or is answered with a status
    from 400 to 599, the call raises that failure (for a status, HTTPError)
    after the cookie reset and that single request, with nothing submitted. *)
Theorem form_page_failure_aborts
    (U : Unicode) (P : Platform) (self : MVRClient) (id_number surname : str)
    (captcha : option str) (w : World) :
  captcha = None \/ captcha = Some [] ->
  (1 <= max_retries self)%Z ->
  (forall e w',
      session_get (BASE_URL ++ SERVICE_PATH) (cookies_clear w) = (Raise e, w') ->
      run_query self id_number surname captcha w
      = (Raise e, [CookiesCleared; HttpGet FormPage (BASE_URL ++ SERVICE_PATH)]))
  /\ (forall response w',
        session_get (BASE_URL ++ SERVICE_PATH) (cookies_clear w)
        = (Ret response, w') ->
        (400 <= status_code response < 600)%Z ->
        run_query self id_number surname captcha w
        = (Raise (HTTPError (status_code response)),
           [CookiesCleared; HttpGet FormPage (BASE_URL ++ SERVICE_PATH)])).
Proof.
  intros Hc Hn.
  assert (R : exists rest, range 1 (max_retries self + 1) = 1%Z :: rest).
  { unfold range.
    destruct (Z.to_nat (max_retries self + 1 - 1)) as [|k] eqn:E; [lia|].
    simpl. eauto. }
  destruct R as [rest R].
  assert (Q : query_documents self id_number surname captcha (start w)
              = for_attempts self id_number surname (1%Z :: rest) None (start w))
    by (destruct Hc as [-> | ->]; simpl; now rewrite R).
  split.
  - intros e w' H. unfold run_query. rewrite Q. cbn [for_attempts].
    unfold attempt_body, bind, clear_cookies, get_form_page, bind, http_get.
    cbn [world trace start]. rewrite H. reflexivity.
  - intros response w' H Hs. unfold run_query. rewrite Q. cbn [for_attempts].
    unfold attempt_body, bind, clear_cookies, get_form_page, bind, http_get.
    cbn [world trace start]. rewrite H. unfold raise_for_status.
    replace ((400 <=? status_code response)%Z && (status_code response <? 600)%Z)
      with true
      by (symmetry; apply andb_true_iff; split;
          [apply Z.leb_le|apply Z.ltb_lt]; lia).
    reflexivity.
Qed.

Lemma form_page_failure_aborts_witness :
  @run_query Scripted.unicode (Scripted.platform true false)
    (@__init__ (Scripted.platform true false) true 3)
    Scripted.egn0 Scripted.name0 None
    [{| status_code := 503%Z; text := []; content := [] |};
     Scripted.ok Scripted.form_text; Scripted.ok Scripted.received_text]
  = (Raise (HTTPError 503%Z),
     [CookiesCleared; HttpGet FormPage (BASE_URL ++ SERVICE_PATH)]).
Proof.
  refine (proj2 (form_page_failure_aborts Scripted.unicode
                   (Scripted.platform true false)
                   (@__init__ (Scripted.platform true false) true 3)
                   Scripted.egn0 Scripted.name0 None
                   [{| status_code := 503%Z; text := []; content := [] |};
                    Scripted.ok Scripted.form_text;
                    Scripted.ok Scripted.received_text]
                   (or_introl eq_refl) ltac:(simpl; lia))
            {| status_code := 503%Z; text := []; content := [] |}
            [Scripted.ok Scripted.form_text; Scripted.ok Scripted.received_text]
            _ _).
  - reflexivity.
  - simpl. lia.
Defined.

(** ** The command line *)


Lemma max_retries_init {U : Unicode} {P : Platform} use_ocr n :
  max_retries (__init__ use_ocr n) = n.
Proof.
  unfold __init__.
  destruct use_ocr, DDDDOCR_AVAILABLE, EASYOCR_AVAILABLE; reflexivity.
Qed.

(** X13: without [--captcha] (or with an empty one) and with a budget below
    1, [main] exits with status 1 without clearing a cookie or sending a
    request. *)
Theorem main_without_budget
    (U : Unicode) (P : Platform) (args : Args) (st : state) :
  arg_captcha args = None \/ arg_captcha args = Some [] ->
  (arg_retries args < 1)%Z ->
  main args st = (1%Z, st).
Proof.
  intros Hc Hn. unfold main.
  assert (E : range 1 (max_retries
                         (__init__ (negb (arg_manual args)) (arg_retries args)) + 1)
              = []).
  { rewrite max_retries_init. unfold range.
    replace (Z.to_nat (arg_retries args + 1 - 1)) with 0%nat by lia.
    reflexivity. }
  destruct Hc as [-> | ->]; simpl; rewrite E; reflexivity.
Qed.

Lemma main_without_budget_witness :
  @main Scripted.unicode (Scripted.platform true false)
    {| arg_egn := Scripted.egn0; arg_last_name := Scripted.name0;
       arg_manual := false; arg_captcha := None; arg_retries := 0 |}
    (@start (Scripted.platform true false) Scripted.document_received)
  = (1%Z, @start (Scripted.platform true false) Scripted.document_received).
Proof.
  apply (main_without_budget Scripted.unicode (Scripted.platform true false)
           {| arg_egn := Scripted.egn0; arg_last_name := Scripted.name0;
              arg_manual := false; arg_captcha := None; arg_retries := 0 |}).
  - left. reflexivity.
  - simpl. lia.
Defined.

(** ** The CAPTCHA image *)

(** X14: for an image given by reference, [extract_captcha_image] does what
    [download_captcha_image] does on the resolved URL ([BASE_URL] before a
    source that starts with "/", the source itself when it starts with
    "http", [BASE_URL] and "/" before any other), and that URL is absolute. *)
Theorem extract_by_reference_is_download
    (U : Unicode) (P : Platform) (soup captcha_img : node) (src : str)
    (st : state) :
  find_captcha_img soup = Some captcha_img ->
  truthy_src captcha_img = Some src ->
  startswith (u "data:image") src = false ->
  extract_captcha_image soup st
  = bind (download_captcha_image (image_url src))
      (fun image => ret (Some image)) st
  /\ startswith (u "http") (image_url src) = true.
Proof.
  intros Himg Hsrc Hdata. split; [|apply image_url_absolute].
  unfold extract_captcha_image. rewrite Himg, Hsrc, Hdata.
  unfold download_captcha_image, bind, image_url. cbv zeta.
  destruct (http_get CaptchaImage _ st) as [[response|e] st1]; [|reflexivity].
  destruct (raise_for_status response st1) as [[[]|e] st2]; reflexivity.
Qed.

Lemma extract_by_reference_is_download_witness :
  startswith (u "http") (image_url (u "captcha/image.png")) = true.
Proof.
  refine (proj2 (extract_by_reference_is_download Scripted.unicode
                   (Scripted.platform true false)
                   (Scripted.page [Scripted.captcha_img (u "captcha/image.png")])
                   (Scripted.captcha_img (u "captcha/image.png"))
                   (u "captcha/image.png")
                   (@start (Scripted.platform true false) []) _ _ _));
    vm_compute; reflexivity.
Defined.

Lemma partition_at_absent sep s :
  forallb (fun c => negb (c =? sep)) s = true -> partition_at sep s = None.
Proof.
  induction s as [|x s IH]; simpl; auto.
  intros H. apply andb_true_iff in H as [Hx H]. apply negb_true_iff in Hx.
  now rewrite Hx, (IH H).
Qed.

(** X15: an inline image ("data:image" source) is decoded without any
    request, whatever comes of the decoding; and when the source has no
    comma, the extraction raises IndexError. *)
Theorem inline_image_needs_no_request
    (U : Unicode) (P : Platform) (soup captcha_img : node) (src : str)
    (st : state) :
  find_captcha_img soup = Some captcha_img ->
  truthy_src captcha_img = Some src ->
  startswith (u "data:image") src = true ->
  snd (extract_captcha_image soup st) = st
  /\ (forallb (fun c => negb (c =? 44)) src = true ->
      extract_captcha_image soup st = (Raise IndexError, st)).
Proof.
  intros Himg Hsrc Hdata.
  unfold extract_captcha_image. rewrite Himg, Hsrc, Hdata.
  unfold bind, lift, ret. split.
  - destruct (data_uri_payload src) as [data|e]; [|reflexivity].
    destruct (Image_open data); reflexivity.
  - intros Hc. unfold data_uri_payload, split_1.
    now rewrite (partition_at_absent _ _ Hc).
Qed.

Lemma inline_image_needs_no_request_witness :
  @extract_captcha_image Scripted.unicode (Scripted.platform true false)
    (Scripted.page [Scripted.captcha_img (u "data:image/png;base64;iVBORw==")])
    (@start (Scripted.platform true false) [])
  = (Raise IndexError, @start (Scripted.platform true false) []).
Proof.
  refine (proj2 (inline_image_needs_no_request Scripted.unicode
                   (Scripted.platform true false)
                   (Scripted.page
                      [Scripted.captcha_img (u "data:image/png;base64;iVBORw==")])
                   (Scripted.captcha_img (u "data:image/png;base64;iVBORw=="))
                   (u "data:image/png;base64;iVBORw==")
                   (@start (Scripted.platform true false) []) _ _ _) _);
    vm_compute; reflexivity.
Defined.

Lemma a2b_skips_noise data : forall quad_pos leftchar pads bin_data,
  a2b_base64_loop (filter b64_significant data) quad_pos leftchar pads bin_data
  = a2b_base64_loop data quad_pos leftchar pads bin_data.
Proof.
  induction data as [|c data IH]; intros quad_pos leftchar pads bin_data;
    [reflexivity|].
  cbn [filter]. unfold b64_significant at 1.
  destruct (c =? BASE64_PAD) eqn:Epad.
  - cbn [orb a2b_base64_loop]. rewrite Epad.
    destruct (Nat.leb 2 quad_pos); [|apply IH].
    destruct (Nat.leb 4 (quad_pos + S pads)); [reflexivity|apply IH].
  - destruct (table_a2b_base64 c) as [v|] eqn:Et.
    + cbn [orb a2b_base64_loop]. rewrite Epad, Et.
      destruct quad_pos as [|[|[|k]]]; apply IH.
    + cbn [orb a2b_base64_loop]. rewrite Epad, Et. apply IH.
Qed.

(** X16: characters outside the base64 alphabet inside the payload of a
    data URI (line breaks, spaces) do not change the bytes decoded: if what
    is left after dropping them is the encoding of the image bytes, the
    extractor decodes exactly those bytes. *)
Theorem line_wrapped_payload_accepted
    (header payload_text : str) (payload : bytes) :
  forallb (fun c => negb (c =? 44)) header = true ->
  forallb (fun c => c <? 128) payload_text = true ->
  filter b64_significant payload_text = b64encode payload ->
  Forall (fun b => b < 256) payload ->
  data_uri_payload (header ++ [44] ++ payload_text) = Ret payload.
Proof.
  intros Hcomma Hascii Hsig Hbytes.
  unfold data_uri_payload, split_1. simpl app.
  rewrite (partition_at_first _ _ _ Hcomma). simpl.
  unfold b64decode, a2b_base64. rewrite Hascii.
  rewrite <- a2b_skips_noise, Hsig.
  exact (decode_encoded_from _ payload [] (le_n _) Hbytes).
Qed.

Lemma line_wrapped_payload_accepted_witness :
  data_uri_payload
    (u "data:image/png;base64" ++ [44]
     ++ (firstn 4 (b64encode Scripted.png) ++ [13; 10]
         ++ skipn 4 (b64encode Scripted.png)))
  = Ret Scripted.png.
Proof.
  apply (line_wrapped_payload_accepted (u "data:image/png;base64")
           (firstn 4 (b64encode Scripted.png) ++ [13; 10]
            ++ skipn 4 (b64encode Scripted.png))
           Scripted.png).
  - vm_compute. reflexivity.
  - vm_compute. reflexivity.
  - vm_compute. reflexivity.
  - repeat constructor.
Defined.

(** ** The OCR solver *)




(** ** The parser, case by case *)

(** X19: the parser reports a failure exactly in two cases: a container was
    found and its text holds an error token, or no container was found, the
    success pattern does not match the page text and the error pattern
    does.  It reports a CAPTCHA error exactly in the second case, or in the
    first when the lower-cased text also holds the captcha token. *)
Theorem parser_failure_cases
    (U : Unicode) (id_number surname body : str) (soup : node) :
  (success (parse_response id_number surname body soup) = false
   <-> (exists d,
          find_result_div soup = Some d
          /\ has_error_token (get_text (u " ") true d) = true)
       \/ (find_result_div soup = None
           /\ re_search re_DOTALL success_pattern (get_text [] false soup) = None
           /\ exists m,
                re_search re_DOTALL_I error_pattern (get_text [] false soup)
                = Some m))
  /\ (is_captcha_error (parse_response id_number surname body soup) = true
      <-> (exists d,
             find_result_div soup = Some d
             /\ has_error_token (get_text (u " ") true d) = true
             /\ contains tok_kapcha (lower (get_text (u " ") true d)) = true)
          \/ (find_result_div soup = None
              /\ re_search re_DOTALL success_pattern (get_text [] false soup)
                 = None
              /\ exists m,
                   re_search re_DOTALL_I error_pattern (get_text [] false soup)
                   = Some m)).
Proof.
  destruct (find_result_div soup) as [d|] eqn:Hdiv.
  - rewrite (parse_container _ _ _ _ _ Hdiv). simpl.
    destruct (has_error_token (get_text (u " ") true d)) eqn:He; simpl.
    + split.
      * split; [intros _; left; eauto|reflexivity].
      * split.
        -- intros Hk. left. eauto.
        -- intros [(d' & [= <-] & _ & Hk)|(D & _)]; [exact Hk|discriminate].
    + split.
      * split; [discriminate|].
        intros [(d' & [= <-] & He')|(D & _)]; congruence.
      * split; [discriminate|].
        intros [(d' & [= <-] & He' & _)|(D & _)]; congruence.
  - destruct (re_search re_DOTALL success_pattern (get_text [] false soup))
      as [m|] eqn:Hs.
    + rewrite (parse_success_match _ _ _ _ _ Hdiv Hs). simpl.
      split; (split; [discriminate|]);
        intros [(d & D & _)|(_ & D & _)]; discriminate.
    + destruct (re_search re_DOTALL_I error_pattern (get_text [] false soup))
        as [m|] eqn:He.
      * rewrite (parse_error_match _ _ _ _ _ Hdiv Hs He). simpl.
        split; (split; [intros _; right; eauto|reflexivity]).
      * rewrite (parse_unparseable _ _ _ _ Hdiv Hs He). simpl.
        split; (split; [discriminate|]);
          intros [(d & D & _)|(_ & _ & m & D)]; discriminate.
Qed.

Section PatternShape.
Context {U : Unicode}.
Variable fl : flags.

Lemma matches_cat_inv r1 r2 m :
  Matches fl (Cat r1 r2) m ->
  exists s1 s2, m = s1 ++ s2 /\ Matches fl r1 s1 /\ Matches fl r2 s2.
Proof. intros M. inversion M; subst. eauto. Qed.

Lemma matches_one_inv a m :
  Matches fl (One a) m -> exists x, m = [x] /\ atom_match fl a x = true.
Proof. intros M. inversion M; subst. eauto. Qed.

Lemma matches_plus_inv a m :
  Matches fl (Plus a) m ->
  exists x s,
    m = x :: s /\ atom_match fl a x = true /\ forallb (atom_match fl a) s = true.
Proof. intros M. inversion M; subst. eauto. Qed.

Lemma matches_star_inv a m :
  Matches fl (StarLazy a) m -> forallb (atom_match fl a) m = true.
Proof. intros M. now inversion M. Qed.

Lemma matches_empty_inv m : Matches fl Empty m -> m = [].
Proof. intros M. now inversion M. Qed.

Lemma matches_lit_exact s m :
  IGNORECASE fl = false -> Matches fl (lit s) m -> m = s.
Proof.
  intros Hi M. apply matches_lit in M.
  induction M as [|c x s m Hx _ IH]; [reflexivity|].
  simpl in Hx. rewrite Hi in Hx. apply N.eqb_eq in Hx. now subst.
Qed.
End PatternShape.

Lemma success_match_shape {U : Unicode} (m : str) :
  Matches re_DOTALL success_pattern m ->
  exists ws d1 d2 d3 d4 d5 d6 d7 d8 rest,
    m = u "След" ++ ws ++ [d1; d2; 46; d3; d4; 46; d5; d6; d7; d8]
        ++ rest ++ u "получен."
    /\ ws <> []
    /\ forallb isspace ws = true
    /\ forallb isdecimal [d1; d2; d3; d4; d5; d6; d7; d8] = true.
Proof.
  intros M. unfold success_pattern in M. cbn [cats] in M.
  apply matches_cat_inv in M as (s0 & m0 & -> & M0 & M).
  apply matches_lit_exact in M0 as ->; [|reflexivity].
  apply matches_cat_inv in M as (ws & m1 & -> & Mws & M).
  apply matches_plus_inv in Mws as (x & s & -> & Hx & Hs).
  apply matches_cat_inv in M as (a1 & m2 & -> & M1 & M).
  apply matches_one_inv in M1 as (d1 & -> & H1).
  apply matches_cat_inv in M as (a2 & m3 & -> & M2 & M).
  apply matches_one_inv in M2 as (d2 & -> & H2).
  apply matches_cat_inv in M as (a3 & m4 & -> & M3 & M).
  apply matches_one_inv in M3 as (p1 & -> & P1).
  apply matches_cat_inv in M as (a4 & m5 & -> & M4 & M).
  apply matches_one_inv in M4 as (d3 & -> & H3).
  apply matches_cat_inv in M as (a5 & m6 & -> & M5 & M).
  apply matches_one_inv in M5 as (d4 & -> & H4).
  apply matches_cat_inv in M as (a6 & m7 & -> & M6 & M).
  apply matches_one_inv in M6 as (p2 & -> & P2).
  apply matches_cat_inv in M as (a7 & m8 & -> & M7 & M).
  apply matches_one_inv in M7 as (d5 & -> & H5).
  apply matches_cat_inv in M as (a8 & m9 & -> & M8 & M).
  apply matches_one_inv in M8 as (d6 & -> & H6).
  apply matches_cat_inv in M as (a9 & m10 & -> & M9 & M).
  apply matches_one_inv in M9 as (d7 & -> & H7).
  apply matches_cat_inv in M as (a10 & m11 & -> & M10 & M).
  apply matches_one_inv in M10 as (d8 & -> & H8).
  apply matches_cat_inv in M as (rest & m12 & -> & Mrest & M).
  apply matches_star_inv in Mrest.
  apply matches_cat_inv in M as (tail & m13 & -> & Mtail & M).
  apply matches_lit_exact in Mtail as ->; [|reflexivity].
  apply matches_empty_inv in M as ->.
  change ((46 =? p1) = true) in P1. change ((46 =? p2) = true) in P2.
  apply N.eqb_eq in P1, P2. subst p1 p2.
  exists (x :: s), d1, d2, d3, d4, d5, d6, d7, d8, rest.
  split; [now rewrite app_nil_r|]. split; [discriminate|].
  split.
  - change (isspace x = true) in Hx. change (forallb isspace s = true) in Hs.
    simpl. now rewrite Hx, Hs.
  - change (isdecimal d1 = true) in H1. change (isdecimal d2 = true) in H2.
    change (isdecimal d3 = true) in H3. change (isdecimal d4 = true) in H4.
    change (isdecimal d5 = true) in H5. change (isdecimal d6 = true) in H6.
    change (isdecimal d7 = true) in H7. change (isdecimal d8 = true) in H8.
    simpl. now rewrite H1, H2, H3, H4, H5, H6, H7, H8.
Qed.

(** X20: a result text taken from the success pattern is the word "След",
    white space, a date of the form dd.dd.dddd, any text, and the closing
    "получен." with nothing after it. *)
Theorem success_phrase_shape
    (U : Unicode) (id_number surname body : str) (soup : node) :
  find_result_div soup = None ->
  occurs re_DOTALL success_pattern (get_text [] false soup) ->
  exists ws d1 d2 d3 d4 d5 d6 d7 d8 rest,
    result (parse_response id_number surname body soup)
    = u "След" ++ ws ++ [d1; d2; 46; d3; d4; 46; d5; d6; d7; d8]
      ++ rest ++ u "получен."
    /\ ws <> []
    /\ forallb isspace ws = true
    /\ forallb isdecimal [d1; d2; d3; d4; d5; d6; d7; d8] = true.
Proof.
  intros Hdiv Hocc.
  destruct (re_search_complete _ _ _ Hocc) as [m Hm].
  rewrite (parse_success_match _ _ _ _ _ Hdiv Hm). simpl.
  destruct (re_search_sound _ _ _ _ Hm) as (_ & _ & _ & HM).
  now apply success_match_shape.
Qed.

Lemma success_phrase_shape_witness :
  exists ws d1 d2 d3 d4 d5 d6 d7 d8 rest,
    result
      (@parse_response Scripted.unicode Scripted.egn0 Scripted.name0 []
         (Scripted.plain (u "Справка. След 01.01.2024 документ е получен. Край.")))
    = u "След" ++ ws ++ [d1; d2; 46; d3; d4; 46; d5; d6; d7; d8]
      ++ rest ++ u "получен."
    /\ ws <> []
    /\ forallb (@isspace Scripted.unicode) ws = true
    /\ forallb (@isdecimal Scripted.unicode) [d1; d2; d3; d4; d5; d6; d7; d8]
       = true.
Proof.
  apply (success_phrase_shape Scripted.unicode Scripted.egn0 Scripted.name0 []
           (Scripted.plain
              (u "Справка. След 01.01.2024 документ е получен. Край."))).
  - reflexivity.
  - apply (search_gives_occurrence (U := Scripted.unicode) re_DOTALL
             success_pattern _ Scripted.received_text).
    vm_compute. reflexivity.
Defined.

(** ** The interceptor's handlers *)

Section InterceptorFacts.
Import Interceptor.

Lemma startswith_sound p : forall s,
  startswith p s = true -> exists rest, s = p ++ rest.
Proof.
  induction p as [|x p IH]; intros s H; [exists s; reflexivity|].
  destruct s as [|y s]; [discriminate|]. simpl in H.
  apply andb_true_iff in H as [Hx H]. apply N.eqb_eq in Hx. subst y.
  destruct (IH _ H) as [rest ->]. exists rest. reflexivity.
Qed.

Lemma contains_sound needle hay :
  contains needle hay = true -> exists pre post, hay = pre ++ needle ++ post.
Proof.
  induction hay as [|x hay IH]; rewrite contains_unfold; intros H;
    apply orb_true_iff in H as [H|H]; try discriminate.
  - apply startswith_sound in H as [rest ->]. exists [], rest. reflexivity.
  - apply startswith_sound in H as [rest ->]. exists [], rest. reflexivity.
  - destruct (IH H) as (pre & post & ->). exists (x :: pre), post. reflexivity.
Qed.

Lemma json_is_static url0 :
  contains (u ".json") url0 = true -> is_static url0 = true.
Proof.
  intros H. apply contains_sound in H as (pre & post & ->).
  unfold is_static, static_extensions. cbn [existsb].
  change (u ".json" ++ post) with ([46; 106; 115] ++ ([111; 110] ++ post)).
  now rewrite contains_app.
Qed.

Lemma fragment_is_static ext url0 :
  In ext static_extensions -> contains ext url0 = true -> is_static url0 = true.
Proof.
  intros Hin H. unfold is_static. apply existsb_exists. eauto.
Qed.
End InterceptorFacts.

(** X21: the interceptor drops a request or a response whenever one of the
    listed fragments occurs anywhere in its URL, not only at its end; so
    every URL that contains ".json" (which contains ".js") is dropped and
    nothing is recorded for it. *)
Theorem json_urls_are_not_captured
    (captured_requests : list Interceptor.RequestData)
    (captured_responses : list Interceptor.ResponseData)
    (request : Interceptor.Request) (response : Interceptor.Response) :
  (contains (u ".json") (Interceptor.url request) = true ->
   Interceptor.handle_request captured_requests request = captured_requests)
  /\ (contains (u ".json") (Interceptor.resp_url response) = true ->
      Interceptor.handle_response captured_responses response
      = captured_responses).
Proof.
  split; intros H; apply json_is_static in H.
  - unfold Interceptor.handle_request. now rewrite H.
  - unfold Interceptor.handle_response. now rewrite H.
Qed.

Lemma json_urls_are_not_captured_witness :
  Interceptor.handle_request []
    {| Interceptor.url := u "https://www.mvr.bg/api/documents.json?egn=1";
       Interceptor.method := u "GET";
       Interceptor.headers := [];
       Interceptor.post_data := None |}
  = [].
Proof.
  refine (proj1 (json_urls_are_not_captured [] []
                   {| Interceptor.url :=
                        u "https://www.mvr.bg/api/documents.json?egn=1";
                      Interceptor.method := u "GET";
                      Interceptor.headers := [];
                      Interceptor.post_data := None |}
                   {| Interceptor.resp_url := [];
                      Interceptor.resp_status := 200%Z;
                      Interceptor.resp_headers := [];
                      Interceptor.resp_text := Ret [] |}) _).
  vm_compute. reflexivity.
Defined.

(** X22: after any sequence of requests, what [handle_request] has
    recorded is what was there before followed by one record, in order, for
    each request whose URL holds none of the listed fragments; the posted
    data is kept for the method POST only. *)
Theorem captured_requests_are_the_filtered_ones
    (requests : list Interceptor.Request)
    (captured_requests : list Interceptor.RequestData) :
  fold_left Interceptor.handle_request requests captured_requests
  = captured_requests
    ++ map Interceptor.request_data
         (filter (fun request =>
                    negb (Interceptor.is_static (Interceptor.url request)))
            requests)
  /\ Forall (fun request =>
               Interceptor.req_post_data (Interceptor.request_data request)
               = if str_eqb (Interceptor.method request) (u "POST")
                 then Interceptor.post_data request
                 else None)
       requests.
Proof.
  split.
  - revert captured_requests.
    induction requests as [|request requests IH]; intros captured_requests;
      simpl; [now rewrite app_nil_r|].
    rewrite IH. unfold Interceptor.handle_request.
    destruct (Interceptor.is_static (Interceptor.url request)); simpl;
      [reflexivity|now rewrite <- app_assoc].
  - apply Forall_forall. reflexivity.
Qed.

(** X23: a response is recorded only when its URL holds none of the listed
    fragments and its body could be read, and what is stored of the body is
    its first 2000 characters (all of it when it is shorter). *)
Theorem captured_body_is_truncated
    (captured_responses : list Interceptor.ResponseData)
    (response : Interceptor.Response) :
  Interceptor.handle_response captured_responses response = captured_responses
  \/ exists body d,
       Interceptor.resp_text response = Ret body
       /\ Interceptor.is_static (Interceptor.resp_url response) = false
       /\ Interceptor.handle_response captured_responses response
          = captured_responses ++ [d]
       /\ Interceptor.data_body d = firstn 2000 body
       /\ (List.length (Interceptor.data_body d) <= 2000)%nat.
Proof.
  unfold Interceptor.handle_response.
  destruct (Interceptor.is_static (Interceptor.resp_url response)); [auto|].
  destruct (Interceptor.resp_text response) as [body|e]; [|auto].
  right. eexists body, _. split; [reflexivity|]. split; [reflexivity|].
  split; [reflexivity|]. cbn [Interceptor.data_body].
  destruct (2000 <? List.length body)%nat eqn:E.
  - split; [reflexivity|]. apply firstn_le_length.
  - apply Nat.ltb_ge in E. split; [|exact E].
    symmetry. now apply firstn_all2.
Qed.
